(** * The node-state aggregator of the network visualisation backend

    A shallow embedding of [NetworkManager]
    (Web-Interface/Backend/network_manager.py) and the properties of its
    five operations: [update_node], [get_commands], [queue_command],
    [get_topology] and [get_node_details].

    Every operation of the source runs inside [async with self.lock], so
    each one is a single atomic transition of the manager's state; it is
    modelled as a computation in a state monad over that state.  The two
    readings of the clock ([time.time()]) are made explicit arguments; they
    are binary64 floats, as in Python. *)

From Stdlib Require Import PrimFloat.
From stdpp Require Import gmap strings list fin_maps.

Local Open Scope string_scope.
Local Open Scope list_scope.

(** A decimal literal denotes the nearest binary64 float, as in Python. *)
#[local] Set Warnings "-inexact-float".

(** ** Python values

    Report payloads arrive as decoded JSON.  Numbers are integers ([PNum])
    or binary64 floats ([PFloat], the type of time stamps); a dict is the
    sequence of its items in insertion order. *)

#[local] Unset Elimination Schemes.
Inductive pyval : Type :=
| PNum (z : Z)
| PFloat (x : float)
| PStr (s : string)
| PList (l : list pyval)
| PDict (d : list (string * pyval)).
#[local] Set Elimination Schemes.

(** ** Insertion-ordered dictionaries

    A Python [dict] keeps its keys in insertion order and [get_topology]
    walks [self.nodes] in that order, so the node store is an association
    list with the dict operations the source uses. *)

Module PyDict.
Section ops.
Context {V : Type}.

(** [d.get(k)]: the value of the first item with key [k]. *)
Fixpoint get (d : list (string * V)) (k : string) : option V :=
  match d with
  | [] => None
  | (k', v) :: d' => if decide (k' = k) then Some v else get d' k
  end.

(** [d.get(k, dflt)]. *)
Definition get_or (d : list (string * V)) (k : string) (dflt : V) : V :=
  default dflt (get d k).

(** [d[k] = v]: an existing key keeps its position, a new key goes last. *)
Fixpoint set (k : string) (v : V) (d : list (string * V)) : list (string * V) :=
  match d with
  | [] => [(k, v)]
  | (k', v') :: d' =>
      if decide (k' = k) then (k, v) :: d' else (k', v') :: set k v d'
  end.

(** [d.keys()], in iteration order. *)
Definition keys (d : list (string * V)) : list string := d.*1.
End ops.
End PyDict.

(** ** The state of a [NetworkManager] *)

(** The dict built by [update_node]; it always has exactly these five keys,
    so it is a record.  [details] is the report itself. *)
Record node_info : Type := mk_node_info {
  last_seen : float;
  routing_table : pyval;
  neighbors : pyval;
  ip : pyval;
  details : list (string * pyval)
}.

(** [self.nodes] and [self.pending_commands].  The command queues are never
    iterated, so their dict is a finite map. *)
Record NetworkManager : Type := mk_manager {
  nodes : list (string * node_info);
  pending_commands : gmap string (list string)
}.

(** [NetworkManager.__init__] *)
Definition init : NetworkManager :=
  {| nodes := []; pending_commands := ∅ |}.

(** ** The state monad of the methods *)

Definition M (A : Type) : Type := NetworkManager → A * NetworkManager.

Definition ret {A} (a : A) : M A := λ s, (a, s).
Definition bind {A B} (m : M A) (k : A → M B) : M B :=
  λ s, let '(a, s') := m s in k a s'.

Notation "'do' x <- m ; k" := (bind m (λ x, k))
  (at level 10, x name, m at level 100, k at level 200).
Notation "'do_' m ; k" := (bind m (λ _, k))
  (at level 10, m at level 100, k at level 200).

Definition read_nodes : M (list (string * node_info)) := λ s, (nodes s, s).
Definition write_nodes (ns : list (string * node_info)) : M unit :=
  λ s, (tt, {| nodes := ns; pending_commands := pending_commands s |}).
Definition read_pending : M (gmap string (list string)) :=
  λ s, (pending_commands s, s).
Definition write_pending (p : gmap string (list string)) : M unit :=
  λ s, (tt, {| nodes := nodes s; pending_commands := p |}).

(** [for x in l: body(x)] *)
Fixpoint for_each {A} (l : list A) (body : A → M unit) : M unit :=
  match l with
  | [] => ret tt
  | x :: l' => do_ body x; for_each l' body
  end.

Definition exec {A} (m : M A) (s : NetworkManager) : NetworkManager := (m s).2.
Definition eval {A} (m : M A) (s : NetworkManager) : A := (m s).1.

(** ** update_node *)

(** The dict literal of [update_node]; [now] is the value of [time.time()]. *)
Definition make_info (now : float) (data : list (string * pyval)) : node_info :=
  {| last_seen := now;
     routing_table := PyDict.get_or data "routing_table" (PDict []);
     neighbors := PyDict.get_or data "neighbors" (PList []);
     ip := PyDict.get_or data "ip" (PStr "");
     details := data |}.

Definition update_node (node_id : string) (data : list (string * pyval))
    (now : float) : M unit :=
  do ns <- read_nodes;
  do_ write_nodes (PyDict.set node_id (make_info now data) ns);
  do p <- read_pending;
  if decide (node_id ∉ dom p) then write_pending (<[node_id := []]> p)
  else ret tt.

(** ** get_commands *)

Definition get_commands (node_id : string) : M (list string) :=
  do p <- read_pending;
  let cmds := default [] (p !! node_id) in
  do_ write_pending (<[node_id := []]> p);
  ret cmds.

(** ** queue_command *)

(** [self.pending_commands.setdefault(nid, []).append(command)] *)
Definition append_command (nid command : string) : M unit :=
  do p <- read_pending;
  write_pending (<[nid := default [] (p !! nid) ++ [command]]> p).

Definition queue_command (node_id command : string) : M unit :=
  if decide (node_id = "BROADCAST") then
    do ns <- read_nodes;
    for_each (PyDict.keys ns) (λ nid, append_command nid command)
  else append_command node_id command.

(** ** get_topology *)

(** The entries of the returned graph: [{"id", "name", "val", "color"}] and
    [{"source", "target", "color"}]. *)
Record graph_node : Type := mk_graph_node {
  g_id : string;
  g_name : string;
  g_val : Z;
  g_color : string
}.

Record graph_link : Type := mk_graph_link {
  l_source : string;
  l_target : string;
  l_color : string
}.

(** The returned dict [{"nodes": graph_nodes, "links": graph_links}]. *)
Record topology : Type := mk_topology {
  t_nodes : list graph_node;
  t_links : list graph_link
}.

(** The locals of one build. *)
Record build : Type := mk_build {
  known_ids : gset string;
  graph_nodes : list graph_node;
  graph_links : list graph_link
}.

(** [(current_time - info["last_seen"]) < 5.0], in binary64 arithmetic: the
    difference is rounded to the nearest float before it is compared. *)
Definition is_active (current_time : float) (info : node_info) : bool :=
  (current_time - last_seen info <? 5)%float.

Definition known_node (nid : string) (active : bool) : graph_node :=
  {| g_id := nid;
     g_name := nid;
     g_val := if active then 10 else 5;
     g_color := if active then "#4CAF50" else "#9E9E9E" |}.

(** Yellow for unknown/offline. *)
Definition ghost_node (neighbor_id : string) : graph_node :=
  {| g_id := neighbor_id;
     g_name := neighbor_id ++ " (?)";
     g_val := 5;
     g_color := "#FFC107" |}.

Definition link (nid neighbor_id : string) : graph_link :=
  {| l_source := nid; l_target := neighbor_id; l_color := "#FFF" |}.

(** The identifiers walked by [for neighbor_id in neighbors].  The graph is
    modelled for neighbor values that are lists of strings, the shape the
    reports give them; for any other value the build has no model ([None]):
    a number in place of the list, and a list or dict among its items, make
    Python raise [TypeError]; a string or dict in place of the list, and
    numbers among the items, are walked as identifiers of their own kind. *)
Definition as_id (v : pyval) : option string :=
  match v with PStr s => Some s | _ => None end.

Definition neighbor_ids (v : pyval) : option (list string) :=
  match v with PList l => mapM as_id l | _ => None end.

(** The body of [for neighbor_id in neighbors]. *)
Definition visit_neighbor (nid : string) (b : build) (neighbor_id : string)
    : build :=
  let b1 :=
    if decide ((neighbor_id ∉ known_ids b) ∧ neighbor_id ≠ "LOCAL") then
      {| known_ids := {[neighbor_id]} ∪ known_ids b;
         graph_nodes := graph_nodes b ++ [ghost_node neighbor_id];
         graph_links := graph_links b |}
    else b in
  if decide (neighbor_id ≠ "LOCAL") then
    {| known_ids := known_ids b1;
       graph_nodes := graph_nodes b1;
       graph_links := graph_links b1 ++ [link nid neighbor_id] |}
  else b1.

(** The body of [for nid, info in self.nodes.items()]. *)
Definition visit_node (current_time : float) (b : build)
    (item : string * node_info) : option build :=
  let '(nid, info) := item in
  let b1 :=
    {| known_ids := known_ids b;
       graph_nodes := graph_nodes b ++ [known_node nid (is_active current_time info)];
       graph_links := graph_links b |} in
  ids ← neighbor_ids (neighbors info);
  Some (foldl (visit_neighbor nid) b1 ids).

Fixpoint visit_nodes (current_time : float) (b : build)
    (items : list (string * node_info)) : option build :=
  match items with
  | [] => Some b
  | item :: items' =>
      b' ← visit_node current_time b item;
      visit_nodes current_time b' items'
  end.

(** The build proper, from a reading of [self.nodes]. *)
Definition build_graph (current_time : float) (ns : list (string * node_info))
    : option topology :=
  let b0 :=
    {| known_ids := list_to_set (PyDict.keys ns);
       graph_nodes := [];
       graph_links := [] |} in
  b ← visit_nodes current_time b0 ns;
  Some {| t_nodes := graph_nodes b; t_links := graph_links b |}.

Definition get_topology (current_time : float) : M (option topology) :=
  do ns <- read_nodes;
  ret (build_graph current_time ns).

(** ** get_node_details *)

(** A stored node dict as the Python value the caller receives. *)
Definition info_dict (info : node_info) : pyval :=
  PDict [("last_seen", PFloat (last_seen info));
         ("routing_table", routing_table info);
         ("neighbors", neighbors info);
         ("ip", ip info);
         ("details", PDict (details info))].

Definition get_node_details (node_id : string) : M pyval :=
  do ns <- read_nodes;
  ret (match PyDict.get ns node_id with
       | Some info => info_dict info
       | None => PDict []
       end).

(** ** Calls and traces *)

Inductive call : Type :=
| UpdateNode (node_id : string) (data : list (string * pyval)) (now : float)
| GetCommands (node_id : string)
| QueueCommand (node_id command : string)
| GetTopology (now : float)
| GetNodeDetails (node_id : string).

Inductive reply : Type :=
| Done
| Commands (cmds : list string)
| Graph (g : option topology)
| Details (v : pyval).

Definition perform (c : call) : M reply :=
  match c with
  | UpdateNode node_id data now => do_ update_node node_id data now; ret Done
  | GetCommands node_id => do cmds <- get_commands node_id; ret (Commands cmds)
  | QueueCommand node_id command => do_ queue_command node_id command; ret Done
  | GetTopology now => do g <- get_topology now; ret (Graph g)
  | GetNodeDetails node_id => do v <- get_node_details node_id; ret (Details v)
  end.

(** The state after a sequence of calls, oldest first. *)
Definition run (tr : list call) (s : NetworkManager) : NetworkManager :=
  foldl (λ s c, exec (perform c) s) s tr.

(** The queue of [nid] as [get_commands] reads it: [.get(nid, [])]. *)
Definition queue_of (nid : string) (s : NetworkManager) : list string :=
  default [] (pending_commands s !! nid).

(** A Python dict holds each key once. *)
Definition wf (s : NetworkManager) : Prop := NoDup (PyDict.keys (nodes s)).

(** ** Specification vocabulary *)

(** The sequence a poller of [A] expects after the calls [tr]: the commands
    addressed to [A] and the broadcasts made while [A] was in the store, in
    call order, since the last [get_commands(A)].  [known] tells whether [A]
    is in the store and [q] is what was pending before [tr]. *)
Fixpoint expected (A : string) (known : bool) (q : list string)
    (tr : list call) : list string :=
  match tr with
  | [] => q
  | UpdateNode B _ _ :: tr' =>
      expected A (known || bool_decide (B = A)) q tr'
  | GetCommands B :: tr' =>
      expected A known (if decide (B = A) then [] else q) tr'
  | QueueCommand B c :: tr' =>
      expected A known
        (if decide (B = A) then q ++ [c]
         else if decide (B = "BROADCAST") then (if known then q ++ [c] else q)
         else q) tr'
  | _ :: tr' => expected A known q tr'
  end.

(** Drain exactness at one poller, one state and one trace. *)
Definition drain_exact (A : string) (s : NetworkManager) (tr : list call)
    : Prop :=
  let s' := run tr s in
  eval (get_commands A) s'
  = expected A (bool_decide (A ∈ PyDict.keys (nodes s))) (queue_of A s) tr
  ∧ queue_of A (exec (get_commands A) s') = []
  ∧ eval (get_commands A) (exec (get_commands A) s') = [].

(** No report for [X] among the calls. *)
Definition no_update (X : string) (tr : list call) : Prop :=
  Forall (λ c, match c with UpdateNode Y _ _ => Y ≠ X | _ => True end) tr.

(** [get_node_details] read as returning the report payload itself. *)
Definition returns_raw_report (X : string) (report : list (string * pyval))
    (now : float) (s : NetworkManager) : Prop :=
  eval (get_node_details X) (exec (update_node X report now) s) = PDict report.

(** The node entries of a graph that carry the identifier [x]. *)
Definition entries_for (x : string) (l : list graph_node) : list graph_node :=
  filter (λ e, g_id e = x) l.

(** The link entries of a graph that go from [a] to [b]. *)
Definition links_between (a b : string) (l : list graph_link)
    : list graph_link :=
  filter (λ e, l_source e = a ∧ l_target e = b) l.

(** The neighbor identifiers one stored node lists, and those of a store. *)
Definition ids_of (info : node_info) : list string :=
  default [] (neighbor_ids (neighbors info)).

Definition listed_ids (ns : list (string * node_info)) : list string :=
  ns ≫= (λ item, ids_of item.2).

(** The links a store calls for: one per listed neighbor that is not the
    self-reference marker, node by node, in listing order. *)
Definition links_of (ns : list (string * node_info)) : list graph_link :=
  ns ≫= (λ item, link item.1 <$> filter (λ n, n ≠ "LOCAL") (ids_of item.2)).

(** Every stored neighbor value is a list of strings. *)
Definition shaped (ns : list (string * node_info)) : Prop :=
  Forall (λ item, is_Some (neighbor_ids (neighbors item.2))) ns.

(** ** Vocabulary for sequences of calls *)

(** The identifiers reported by [update_node] calls, in call order. *)
Definition reported (tr : list call) : list string :=
  tr ≫= (λ c, match c with UpdateNode B _ _ => [B] | _ => [] end).

(** Appending an identifier unless it is there already. *)
Definition add_new (acc : list string) (x : string) : list string :=
  if decide (x ∈ acc) then acc else acc ++ [x].

(** The calls of [tr] contain no [update_node]. *)
Definition no_reports (tr : list call) : Prop :=
  Forall (λ c, match c with UpdateNode _ _ _ => False | _ => True end) tr.

(** Every report of [tr] has no "neighbors" key or a list of strings
    under it. *)
Definition good_reports (tr : list call) : Prop :=
  Forall (λ c, match c with
               | UpdateNode _ data _ =>
                   is_Some (neighbor_ids
                              (PyDict.get_or data "neighbors" (PList [])))
               | _ => True
               end) tr.

(** What the [get_commands(A)] calls of [tr] return, one after the other,
    when [tr] is run from [s]. *)
Fixpoint delivered (A : string) (tr : list call) (s : NetworkManager)
    : list string :=
  match tr with
  | [] => []
  | c :: tr' =>
      (match c with
       | GetCommands B =>
           if decide (B = A) then eval (get_commands B) s else []
       | _ => []
       end) ++ delivered A tr' (exec (perform c) s)
  end.

(** The commands [tr] enqueues for [A]: those addressed to [A] and the
    broadcasts made while [A] is in the store ([known] says whether it is at
    the start). *)
Fixpoint addressed (A : string) (known : bool) (tr : list call)
    : list string :=
  match tr with
  | [] => []
  | UpdateNode B _ _ :: tr' => addressed A (known || bool_decide (B = A)) tr'
  | QueueCommand B c :: tr' =>
      (if decide (B = A) then [c]
       else if decide (B = "BROADCAST") then (if known then [c] else [])
       else []) ++ addressed A known tr'
  | _ :: tr' => addressed A known tr'
  end.

(** During a build over a store with keys [K]: the ghosts made so far are
    those of [acc], in the order they were made. *)
Definition ghosts_are (K : list string) (b : build) (acc : list string)
    : Prop :=
  (∀ x, x ∈ known_ids b ↔ x ∈ K ∨ x ∈ acc)
  ∧ filter (λ e, g_id e ∉ K) (graph_nodes b) = ghost_node <$> acc.

(** ** Sample states *)

(** Nodes A and B known, C not. *)
Definition two_nodes : NetworkManager :=
  run [UpdateNode "A" [] 0; UpdateNode "B" [] 1] init.

(** Read at time 20: A reported twenty seconds ago, C half a second ago and
    E1 four seconds ago; B, D and E never reported. *)
Definition mesh : NetworkManager :=
  run [UpdateNode "A"
         [("neighbors", PList [PStr "B"; PStr "LOCAL"; PStr "C"; PStr "B"])] 0;
       UpdateNode "C"
         [("neighbors", PList [PStr "A"; PStr "D"; PStr "B"]);
          ("ip", PStr "10.0.0.3")] 19.5;
       UpdateNode "E1" [("neighbors", PList [PStr "E"])] 16] init.

(** One node, last seen at 0.1. *)
Definition one_node : NetworkManager :=
  run [UpdateNode "n" [] 0.1] init.

(** Node A reporting the same neighbor with an address, and with a routing
    table and a pending command. *)
Definition a_with_ip : NetworkManager :=
  run [UpdateNode "A"
         [("neighbors", PList [PStr "B"]); ("ip", PStr "10.0.0.1")] 7] init.

Definition a_with_routes : NetworkManager :=
  run [UpdateNode "A"
         [("routing_table", PDict [("B", PNum 1)]);
          ("neighbors", PList [PStr "B"])] 7;
       QueueCommand "A" "c"] init.

(** Closing a decidable goal about concrete data by evaluation. *)
Ltac by_eval := apply (bool_decide_unpack _); vm_compute; exact I.

(** * Properties *)

(** ** Dictionaries *)

Module PyDictFacts.
Section facts.
Context {V : Type}.
Implicit Types (d : list (string * V)) (k : string) (v : V).

Lemma get_None d k : PyDict.get d k = None ↔ k ∉ PyDict.keys d.
Proof.
  unfold PyDict.keys. induction d as [|[k' v'] d IH]; simpl.
  - split; [intros _; apply not_elem_of_nil | done].
  - rewrite not_elem_of_cons. case_decide; subst.
    + split; [done | intros [? _]; done].
    + rewrite IH. intuition congruence.
Qed.

Lemma get_is_Some d k : is_Some (PyDict.get d k) ↔ k ∈ PyDict.keys d.
Proof.
  rewrite <- not_eq_None_Some, get_None.
  split; [apply dec_stable | auto].
Qed.

Lemma get_set_eq d k v : PyDict.get (PyDict.set k v d) k = Some v.
Proof.
  induction d as [|[k' v'] d IH]; simpl.
  - by rewrite decide_True.
  - case_decide; simpl; [by rewrite decide_True | by rewrite decide_False].
Qed.

Lemma get_set_ne d k k' v :
  k ≠ k' → PyDict.get (PyDict.set k v d) k' = PyDict.get d k'.
Proof.
  intros Hne. induction d as [|[k0 v0] d IH]; simpl.
  - by rewrite decide_False.
  - case_decide; subst; simpl.
    + by rewrite !decide_False.
    + by rewrite IH.
Qed.

Lemma set_set d k v1 v2 :
  PyDict.set k v2 (PyDict.set k v1 d) = PyDict.set k v2 d.
Proof.
  induction d as [|[k0 v0] d IH]; simpl.
  - by rewrite decide_True.
  - case_decide; simpl; [by rewrite decide_True |].
    by rewrite decide_False, IH.
Qed.

Lemma keys_set_old d k v :
  k ∈ PyDict.keys d → PyDict.keys (PyDict.set k v d) = PyDict.keys d.
Proof.
  unfold PyDict.keys. induction d as [|[k0 v0] d IH]; simpl.
  - by intros ?%elem_of_nil.
  - intros Hin. case_decide; subst; simpl; [done |].
    f_equal. apply IH. by apply elem_of_cons in Hin as [?|?].
Qed.

Lemma keys_set_new d k v :
  k ∉ PyDict.keys d → PyDict.keys (PyDict.set k v d) = PyDict.keys d ++ [k].
Proof.
  unfold PyDict.keys. induction d as [|[k0 v0] d IH]; simpl; [done |].
  intros [? ?]%not_elem_of_cons. rewrite decide_False by done.
  simpl. f_equal. by apply IH.
Qed.

Lemma elem_of_keys_set d k k' v :
  k' ∈ PyDict.keys (PyDict.set k v d) ↔ k' = k ∨ k' ∈ PyDict.keys d.
Proof.
  destruct (decide (k ∈ PyDict.keys d)) as [Hin|Hin].
  - rewrite keys_set_old by done. split; [auto | by intros [->|?]].
  - rewrite keys_set_new by done. rewrite elem_of_app, list_elem_of_singleton.
    tauto.
Qed.

Lemma NoDup_keys_set d k v :
  NoDup (PyDict.keys d) → NoDup (PyDict.keys (PyDict.set k v d)).
Proof.
  intros Hnd. destruct (decide (k ∈ PyDict.keys d)) as [Hin|Hin].
  - by rewrite keys_set_old.
  - rewrite keys_set_new by done. apply NoDup_app. split_and!; [done | |].
    + intros x Hx ->%list_elem_of_singleton. done.
    + apply NoDup_singleton.
Qed.

Lemma get_elem_of d k v : PyDict.get d k = Some v → (k, v) ∈ d.
Proof.
  induction d as [|[k0 v0] d IH]; simpl; [done |].
  case_decide; subst.
  - intros [= ->]. apply elem_of_cons. by left.
  - intros ?. apply elem_of_cons. right. by apply IH.
Qed.

Lemma filter_key d k v :
  NoDup (PyDict.keys d) → PyDict.get d k = Some v →
  filter (λ item, item.1 = k) d = [(k, v)].
Proof.
  unfold PyDict.keys. induction d as [|[k0 v0] d IH]; simpl; [done |].
  intros [Hk0 Hnd]%NoDup_cons. rewrite filter_cons. simpl.
  case_decide; subst.
  - intros [= ->]. f_equal.
    destruct (filter (λ item, item.1 = k) d) as [|[k' v'] l] eqn:Hf; [done |].
    exfalso. apply Hk0.
    assert ((k', v') ∈ filter (λ item : string * V, item.1 = k) d)
      as [Hk Hin]%list_elem_of_filter by (rewrite Hf; apply elem_of_cons; auto).
    simpl in Hk. subst k'. apply list_elem_of_fmap. by exists (k, v').
  - by apply IH.
Qed.

Lemma elem_of_get d k v :
  NoDup (PyDict.keys d) → (k, v) ∈ d → PyDict.get d k = Some v.
Proof.
  unfold PyDict.keys. induction d as [|[k0 v0] d IH]; simpl.
  - by intros _ ?%elem_of_nil.
  - intros [Hk0 Hnd]%NoDup_cons [Heq|Hin]%elem_of_cons.
    + injection Heq as -> ->. by rewrite decide_True.
    + rewrite decide_False; [by apply IH |].
      intros ->. apply Hk0. apply list_elem_of_fmap. by exists (k, v).
Qed.
End facts.
End PyDictFacts.

(** ** The effect of each operation on the state *)

Section operations.
Implicit Types (s : NetworkManager) (nid node_id command : string).

Lemma nodes_update_node node_id data now s :
  nodes (exec (update_node node_id data now) s)
  = PyDict.set node_id (make_info now data) (nodes s).
Proof. unfold exec, update_node, bind; simpl. by case_decide. Qed.

Lemma pending_update_node node_id data now s :
  pending_commands (exec (update_node node_id data now) s)
  = if decide (node_id ∈ dom (pending_commands s)) then pending_commands s
    else <[node_id := []]> (pending_commands s).
Proof.
  unfold exec, update_node, bind; simpl.
  destruct (decide (node_id ∈ dom (pending_commands s))).
  - by rewrite decide_False by auto.
  - by rewrite decide_True.
Qed.

Lemma queue_of_update_node node_id data now nid s :
  queue_of nid (exec (update_node node_id data now) s) = queue_of nid s.
Proof.
  unfold queue_of. rewrite pending_update_node. case_decide as Hdom; [done |].
  destruct (decide (node_id = nid)) as [->|Hne].
  - rewrite lookup_insert_eq. by apply not_elem_of_dom in Hdom as ->.
  - by rewrite lookup_insert_ne.
Qed.

Lemma eval_get_commands node_id s :
  eval (get_commands node_id) s = queue_of node_id s.
Proof. done. Qed.

Lemma nodes_get_commands node_id s :
  nodes (exec (get_commands node_id) s) = nodes s.
Proof. done. Qed.

Lemma pending_get_commands node_id s :
  pending_commands (exec (get_commands node_id) s)
  = <[node_id := []]> (pending_commands s).
Proof. done. Qed.

Lemma queue_of_get_commands node_id nid s :
  queue_of nid (exec (get_commands node_id) s)
  = if decide (nid = node_id) then [] else queue_of nid s.
Proof.
  unfold queue_of. rewrite pending_get_commands. case_decide; subst.
  - by rewrite lookup_insert_eq.
  - by rewrite lookup_insert_ne.
Qed.

Lemma nodes_append_command nid command s :
  nodes (exec (append_command nid command) s) = nodes s.
Proof. done. Qed.

Lemma pending_append_command nid command s :
  pending_commands (exec (append_command nid command) s)
  = <[nid := queue_of nid s ++ [command]]> (pending_commands s).
Proof. done. Qed.

Lemma exec_for_each_cons {A} (x : A) l (body : A → M unit) s :
  exec (for_each (x :: l) body) s = exec (for_each l body) (exec (body x) s).
Proof. unfold exec; simpl. unfold bind. by destruct (body x s). Qed.

(** The fan-out loop of [queue_command]. *)
Lemma nodes_fan_out ks command s :
  nodes (exec (for_each ks (λ nid, append_command nid command)) s) = nodes s.
Proof.
  revert s. induction ks as [|k ks IH]; intros s; [done |].
  by rewrite exec_for_each_cons, IH.
Qed.

Lemma pending_fan_out ks command nid s :
  NoDup ks →
  pending_commands (exec (for_each ks (λ nid, append_command nid command)) s)
    !! nid
  = if decide (nid ∈ ks) then Some (queue_of nid s ++ [command])
    else pending_commands s !! nid.
Proof.
  revert s. induction ks as [|k ks IH]; intros s Hnd.
  - by rewrite decide_False by apply not_elem_of_nil.
  - apply NoDup_cons in Hnd as [Hk Hnd].
    rewrite exec_for_each_cons, IH by done.
    unfold queue_of at 1. rewrite pending_append_command.
    destruct (decide (nid = k)) as [->|Hne].
    + rewrite decide_False by done. rewrite lookup_insert_eq.
      by rewrite decide_True by (apply elem_of_cons; auto).
    + rewrite lookup_insert_ne by done.
      destruct (decide (nid ∈ ks)) as [Hin|Hin].
      * by rewrite decide_True by (apply elem_of_cons; auto).
      * rewrite decide_False; [done |].
        by intros [?|?]%elem_of_cons.
Qed.

Lemma nodes_queue_command node_id command s :
  nodes (exec (queue_command node_id command) s) = nodes s.
Proof.
  unfold queue_command. case_decide; [| done].
  unfold exec, bind, read_nodes; simpl. apply nodes_fan_out.
Qed.

Lemma pending_queue_command_direct node_id command s :
  node_id ≠ "BROADCAST" →
  pending_commands (exec (queue_command node_id command) s)
  = <[node_id := queue_of node_id s ++ [command]]> (pending_commands s).
Proof. intros Hne. unfold queue_command. by rewrite decide_False. Qed.

Lemma pending_queue_command_broadcast command nid s :
  wf s →
  pending_commands (exec (queue_command "BROADCAST" command) s) !! nid
  = if decide (nid ∈ PyDict.keys (nodes s))
    then Some (queue_of nid s ++ [command])
    else pending_commands s !! nid.
Proof.
  intros Hwf. unfold queue_command. rewrite decide_True by done.
  unfold exec, bind, read_nodes; simpl. by apply pending_fan_out.
Qed.

Lemma queue_of_queue_command node_id command nid s :
  wf s →
  queue_of nid (exec (queue_command node_id command) s)
  = if decide (node_id = "BROADCAST") then
      if decide (nid ∈ PyDict.keys (nodes s))
      then queue_of nid s ++ [command] else queue_of nid s
    else if decide (nid = node_id)
      then queue_of nid s ++ [command] else queue_of nid s.
Proof.
  intros Hwf. destruct (decide (node_id = "BROADCAST")) as [->|Hne].
  - unfold queue_of at 1. rewrite pending_queue_command_broadcast by done.
    by case_decide.
  - unfold queue_of at 1. rewrite pending_queue_command_direct by done.
    case_decide; subst.
    + by rewrite lookup_insert_eq.
    + by rewrite lookup_insert_ne.
Qed.

Lemma exec_get_topology now s : exec (get_topology now) s = s.
Proof. done. Qed.

Lemma exec_get_node_details node_id s : exec (get_node_details node_id) s = s.
Proof. done. Qed.

(** Well-formedness is an invariant of the manager. *)
Lemma wf_init : wf init.
Proof. apply NoDup_nil_2. Qed.

Lemma exec_perform c s :
  exec (perform c) s
  = match c with
    | UpdateNode node_id data now => exec (update_node node_id data now) s
    | GetCommands node_id => exec (get_commands node_id) s
    | QueueCommand node_id command => exec (queue_command node_id command) s
    | GetTopology _ | GetNodeDetails _ => s
    end.
Proof.
  destruct c; unfold exec, perform, bind; simpl; try done.
  - by destruct (update_node _ _ _ s).
  - by destruct (queue_command _ _ s).
Qed.

Lemma wf_perform c s : wf s → wf (exec (perform c) s).
Proof.
  unfold wf. intros Hwf. rewrite exec_perform.
  destruct c as [id data now|id|id cmd|now|id]; try done.
  - rewrite nodes_update_node. by apply PyDictFacts.NoDup_keys_set.
  - by rewrite nodes_queue_command.
Qed.

Lemma wf_run tr s : wf s → wf (run tr s).
Proof.
  revert s. induction tr as [|c tr IH]; intros s Hwf; [done |].
  simpl. apply IH. by apply wf_perform.
Qed.
End operations.

Lemma manager_eq (s1 s2 : NetworkManager) :
  nodes s1 = nodes s2 → pending_commands s1 = pending_commands s2 → s1 = s2.
Proof. destruct s1, s2; simpl. by intros -> ->. Qed.

Lemma run_cons c tr s : run (c :: tr) s = run tr (exec (perform c) s).
Proof. done. Qed.

Lemma run_app tr1 tr2 s : run (tr1 ++ tr2) s = run tr2 (run tr1 s).
Proof. apply foldl_app. Qed.

(** A fan-out leaves the queues of identifiers outside the store alone. *)
Lemma pending_fan_out_other ks command nid s :
  nid ∉ ks →
  pending_commands (exec (for_each ks (λ nid, append_command nid command)) s)
    !! nid
  = pending_commands s !! nid.
Proof.
  revert s. induction ks as [|k ks IH]; intros s Hnid; [done |].
  apply not_elem_of_cons in Hnid as [Hne Hnid].
  rewrite exec_for_each_cons, IH by done.
  rewrite pending_append_command. by rewrite lookup_insert_ne.
Qed.

Lemma fan_out_nil command s :
  exec (queue_command "BROADCAST" command) s
  = exec (for_each (PyDict.keys (nodes s))
            (λ nid, append_command nid command)) s.
Proof. done. Qed.

Lemma queue_of_run A tr s :
  A ≠ "BROADCAST" → wf s →
  queue_of A (run tr s)
  = expected A (bool_decide (A ∈ PyDict.keys (nodes s))) (queue_of A s) tr.
Proof.
  intros HA. revert s. induction tr as [|c tr IH]; intros s Hwf; [done |].
  rewrite run_cons, IH by by apply wf_perform.
  rewrite exec_perform. destruct c as [B data now|B|B cmd|now|B]; cbn [expected].
  - rewrite nodes_update_node, queue_of_update_node. f_equal.
    destruct (decide (B = A)) as [->|Hne].
    + rewrite (bool_decide_eq_true_2 (A = A)) by done.
      rewrite orb_true_r. apply bool_decide_eq_true_2.
      apply PyDictFacts.elem_of_keys_set. by left.
    + rewrite (bool_decide_eq_false_2 (B = A)) by done.
      rewrite orb_false_r. apply bool_decide_ext.
      rewrite PyDictFacts.elem_of_keys_set. intuition congruence.
  - rewrite nodes_get_commands, queue_of_get_commands.
    by destruct (decide (A = B)), (decide (B = A)); subst.
  - rewrite nodes_queue_command, queue_of_queue_command by done.
    destruct (decide (B = A)) as [->|Hne].
    + rewrite decide_False by done. by rewrite decide_True.
    + destruct (decide (B = "BROADCAST")) as [->|HB].
      * by case_bool_decide; [rewrite decide_True | rewrite decide_False].
      * by rewrite decide_False by done.
  - done.
  - done.
Qed.

Lemma get_nodes_run X tr s :
  no_update X tr → PyDict.get (nodes (run tr s)) X = PyDict.get (nodes s) X.
Proof.
  intros Hno. revert s. induction Hno as [|c tr Hc Hno IH]; intros s; [done |].
  rewrite run_cons, IH, exec_perform.
  destruct c as [B data now|B|B cmd|now|B]; try done.
  - rewrite nodes_update_node. by apply PyDictFacts.get_set_ne.
  - by rewrite nodes_queue_command.
Qed.


(** ** The topology build *)

Section build.
Implicit Types (b : build) (x n nid : string) (ids : list string).

Lemma known_visit_neighbor nid b n x :
  x ∈ known_ids (visit_neighbor nid b n)
  ↔ x ∈ known_ids b ∨ (x = n ∧ n ≠ "LOCAL").
Proof.
  unfold visit_neighbor.
  destruct (decide ((n ∉ known_ids b) ∧ n ≠ "LOCAL")) as [[Hn HL]|Hno];
    destruct (decide (n ≠ "LOCAL")) as [HL'|HL']; simpl.
  - rewrite elem_of_union, elem_of_singleton. tauto.
  - done.
  - split; [auto |]. intros [?|[-> _]]; [done |].
    apply dec_stable. intros Hn. apply Hno. done.
  - tauto.
Qed.

Lemma nodes_visit_neighbor nid b n :
  graph_nodes (visit_neighbor nid b n)
  = graph_nodes b
    ++ (if decide ((n ∉ known_ids b) ∧ n ≠ "LOCAL") then [ghost_node n] else []).
Proof.
  unfold visit_neighbor.
  destruct (decide ((n ∉ known_ids b) ∧ n ≠ "LOCAL"));
    destruct (decide (n ≠ "LOCAL")); simpl; by rewrite ?app_nil_r.
Qed.

Lemma links_visit_neighbor nid b n :
  graph_links (visit_neighbor nid b n)
  = graph_links b ++ (if decide (n ≠ "LOCAL") then [link nid n] else []).
Proof.
  unfold visit_neighbor.
  destruct (decide ((n ∉ known_ids b) ∧ n ≠ "LOCAL"));
    destruct (decide (n ≠ "LOCAL")); simpl; by rewrite ?app_nil_r.
Qed.

(** The inner loop over one neighbor list. *)
Lemma known_visit_neighbors nid ids b x :
  x ∈ known_ids (foldl (visit_neighbor nid) b ids)
  ↔ x ∈ known_ids b ∨ (x ∈ ids ∧ x ≠ "LOCAL").
Proof.
  revert b. induction ids as [|n ids IH]; intros b; simpl.
  - rewrite elem_of_nil. tauto.
  - rewrite IH, known_visit_neighbor, elem_of_cons.
    split; [intros [[?|[-> ?]]|[? ?]]; auto | intros [?|[[->|?] ?]]; auto].
Qed.

Lemma links_visit_neighbors nid ids b :
  graph_links (foldl (visit_neighbor nid) b ids)
  = graph_links b ++ (link nid <$> filter (λ n, n ≠ "LOCAL") ids).
Proof.
  revert b. induction ids as [|n ids IH]; intros b; simpl.
  - by rewrite app_nil_r.
  - rewrite IH, links_visit_neighbor, <- app_assoc. f_equal.
    rewrite filter_cons. by case_decide.
Qed.

Lemma entries_for_app x (l1 l2 : list graph_node) :
  entries_for x (l1 ++ l2) = entries_for x l1 ++ entries_for x l2.
Proof. apply filter_app. Qed.

Lemma entries_visit_neighbors nid ids b x :
  entries_for x (graph_nodes (foldl (visit_neighbor nid) b ids))
  = entries_for x (graph_nodes b)
    ++ (if decide (x ∈ ids ∧ (x ∉ known_ids b) ∧ x ≠ "LOCAL")
        then [ghost_node x] else []).
Proof.
  revert b. induction ids as [|n ids IH]; intros b; simpl.
  - by rewrite app_nil_r.
  - rewrite IH, nodes_visit_neighbor, entries_for_app, <- app_assoc. f_equal.
    destruct (decide (x = n)) as [->|Hne].
    + destruct (decide ((n ∉ known_ids b) ∧ n ≠ "LOCAL")) as [[Hn HL]|Hno].
      * rewrite (decide_True (P := n ∈ n :: ids ∧ _))
          by (split_and!; [apply elem_of_cons; auto | done | done]).
        rewrite decide_False.
        -- rewrite app_nil_r. unfold entries_for. rewrite filter_cons.
           by rewrite decide_True.
        -- intros (_ & Hk & _). apply Hk, known_visit_neighbor. auto.
      * rewrite (decide_False (P := n ∈ n :: ids ∧ _)) by tauto.
        rewrite decide_False; [done |].
        intros (_ & Hk & HL). apply Hno. split; [| done].
        intros Hb. apply Hk, known_visit_neighbor. auto.
    + assert (entries_for x
                (if decide ((n ∉ known_ids b) ∧ n ≠ "LOCAL")
                 then [ghost_node n] else []) = []) as ->.
      { destruct (decide ((n ∉ known_ids b) ∧ n ≠ "LOCAL")); [| reflexivity].
        unfold entries_for. rewrite filter_cons.
        by rewrite decide_False by (simpl; congruence). }
      simpl. apply decide_ext.
      rewrite known_visit_neighbor, elem_of_cons. 
      split; [intros (? & ? & ?); split_and!; auto
             | intros ([?|?] & ? & ?); [done |]; split_and!; auto].
      intros [?|[? _]]; auto.
Qed.

(** The outer loop over the store. *)
Lemma visit_node_Some now b nid info b' :
  visit_node now b (nid, info) = Some b' →
  ∃ ids, neighbor_ids (neighbors info) = Some ids ∧ ids_of info = ids
    ∧ b' = foldl (visit_neighbor nid)
             {| known_ids := known_ids b;
                graph_nodes :=
                  graph_nodes b ++ [known_node nid (is_active now info)];
                graph_links := graph_links b |} ids.
Proof.
  unfold visit_node, ids_of.
  destruct (neighbor_ids (neighbors info)) as [ids|]; simpl; [| done].
  intros [= <-]. by exists ids.
Qed.

Lemma visit_nodes_cons now b item items b' :
  visit_nodes now b (item :: items) = Some b' →
  ∃ b1, visit_node now b item = Some b1 ∧ visit_nodes now b1 items = Some b'.
Proof.
  simpl. destruct (visit_node now b item) as [b1|]; simpl; [| done].
  intros ?. by exists b1.
Qed.

Lemma visit_nodes_total now items b :
  shaped items → is_Some (visit_nodes now b items).
Proof.
  intros Hsh. revert b.
  induction Hsh as [|[nid info] items [ids Hids] _ IH]; intros b; [by eexists |].
  simpl in *. unfold visit_node. rewrite Hids. simpl. apply IH.
Qed.

Lemma visit_nodes_shaped now items b b' :
  visit_nodes now b items = Some b' → shaped items.
Proof.
  revert b. induction items as [|[nid info] items IH]; intros b.
  - intros _. apply Forall_nil_2.
  - intros (b1 & (ids & Hids & _ & _)%visit_node_Some & Hrest)%visit_nodes_cons.
    apply Forall_cons. split; [by exists ids | by eapply IH].
Qed.

Lemma links_visit_nodes now items b b' :
  visit_nodes now b items = Some b' →
  graph_links b' = graph_links b ++ links_of items.
Proof.
  revert b. induction items as [|[nid info] items IH]; intros b.
  - intros [= <-]. by rewrite app_nil_r.
  - intros (b1 & (ids & _ & Hids & ->)%visit_node_Some & Hrest)%visit_nodes_cons.
    rewrite (IH _ Hrest), links_visit_neighbors. simpl.
    by rewrite Hids, <- app_assoc.
Qed.

Lemma known_visit_nodes now items b b' x :
  visit_nodes now b items = Some b' →
  x ∈ known_ids b' ↔ x ∈ known_ids b ∨ (x ∈ listed_ids items ∧ x ≠ "LOCAL").
Proof.
  revert b. induction items as [|[nid info] items IH]; intros b.
  - intros [= <-]. unfold listed_ids. simpl. rewrite elem_of_nil. tauto.
  - intros (b1 & (ids & _ & Hids & ->)%visit_node_Some & Hrest)%visit_nodes_cons.
    rewrite (IH _ Hrest), known_visit_neighbors. simpl.
    unfold listed_ids at 2. simpl. fold (listed_ids items).
    rewrite elem_of_app, Hids. tauto.
Qed.

Lemma entries_known_node x nid active :
  entries_for x [known_node nid active]
  = if decide (nid = x) then [known_node nid active] else [].
Proof. unfold entries_for. rewrite filter_cons. simpl. by case_decide. Qed.

(** An identifier outside the store gets a ghost entry, once, when it is
    first met. *)
Lemma entries_visit_nodes_ghost now items b b' x :
  visit_nodes now b items = Some b' →
  x ∉ PyDict.keys items →
  entries_for x (graph_nodes b')
  = entries_for x (graph_nodes b)
    ++ (if decide (x ∈ listed_ids items ∧ (x ∉ known_ids b) ∧ x ≠ "LOCAL")
        then [ghost_node x] else []).
Proof.
  revert b. induction items as [|[nid info] items IH]; intros b.
  - intros [= <-] _. by rewrite app_nil_r.
  - intros (b1 & (ids & _ & Hids & ->)%visit_node_Some & Hrest)%visit_nodes_cons.
    unfold PyDict.keys. simpl. intros [Hne Hx]%not_elem_of_cons.
    rewrite (IH _ Hrest Hx), entries_visit_neighbors. simpl.
    rewrite entries_for_app, entries_known_node.
    rewrite decide_False by congruence. rewrite app_nil_r, <- app_assoc.
    f_equal. unfold listed_ids at 2. simpl. rewrite Hids.
    fold (listed_ids items).
    destruct (decide (x ∈ ids ∧ (x ∉ known_ids b) ∧ x ≠ "LOCAL"))
      as [(Hin & Hk & HL)|Hno].
    + rewrite decide_False.
      * rewrite decide_True; [done |]. rewrite elem_of_app. auto.
      * intros (_ & Hk' & _). apply Hk', known_visit_neighbors. simpl. auto.
    + simpl. apply decide_ext. rewrite known_visit_neighbors, elem_of_app.
      simpl. tauto.
Qed.

(** An identifier of the store never gets a ghost entry. *)
Lemma entries_visit_nodes_known now items b b' x :
  visit_nodes now b items = Some b' →
  x ∈ known_ids b →
  entries_for x (graph_nodes b')
  = entries_for x (graph_nodes b)
    ++ ((λ item, known_node item.1 (is_active now item.2))
          <$> filter (λ item, item.1 = x) items).
Proof.
  revert b. induction items as [|[nid info] items IH]; intros b.
  - intros [= <-] _. by rewrite app_nil_r.
  - intros (b1 & (ids & _ & Hids & ->)%visit_node_Some & Hrest)%visit_nodes_cons.
    intros Hx. rewrite (IH _ Hrest).
    + rewrite entries_visit_neighbors. simpl.
      rewrite decide_False by tauto.
      rewrite app_nil_r, entries_for_app, entries_known_node, <- app_assoc.
      f_equal. rewrite filter_cons. simpl. by case_decide.
    + apply known_visit_neighbors. simpl. auto.
Qed.
End build.

(** ** The returned graph *)

Section graph.
Implicit Types (ns : list (string * node_info)) (g : topology) (x : string).

Lemma eval_get_topology now s :
  eval (get_topology now) s = build_graph now (nodes s).
Proof. done. Qed.

Lemma build_graph_Some now ns g :
  build_graph now ns = Some g →
  ∃ b, visit_nodes now
         {| known_ids := list_to_set (PyDict.keys ns);
            graph_nodes := []; graph_links := [] |} ns = Some b
       ∧ t_nodes g = graph_nodes b ∧ t_links g = graph_links b.
Proof.
  unfold build_graph. destruct (visit_nodes _ _ ns) as [b|]; simpl; [| done].
  intros [= <-]. by exists b.
Qed.

Lemma build_graph_total now ns : shaped ns → is_Some (build_graph now ns).
Proof.
  intros Hsh. unfold build_graph.
  destruct (visit_nodes_total now ns
              {| known_ids := list_to_set (PyDict.keys ns);
                 graph_nodes := []; graph_links := [] |} Hsh) as [b ->].
  by eexists.
Qed.

Lemma graph_links_all now ns g :
  build_graph now ns = Some g → t_links g = links_of ns.
Proof.
  intros (b & Hb & _ & ->)%build_graph_Some.
  by rewrite (links_visit_nodes _ _ _ _ Hb).
Qed.

Lemma graph_ghost_entries now ns g x :
  build_graph now ns = Some g → x ∉ PyDict.keys ns →
  entries_for x (t_nodes g)
  = if decide (x ∈ listed_ids ns ∧ x ≠ "LOCAL") then [ghost_node x] else [].
Proof.
  intros (b & Hb & -> & _)%build_graph_Some Hx.
  rewrite (entries_visit_nodes_ghost _ _ _ _ _ Hb Hx). simpl.
  apply decide_ext. rewrite elem_of_list_to_set. tauto.
Qed.

Lemma graph_known_entries now ns g x info :
  build_graph now ns = Some g → NoDup (PyDict.keys ns) →
  PyDict.get ns x = Some info →
  entries_for x (t_nodes g) = [known_node x (is_active now info)].
Proof.
  intros (b & Hb & -> & _)%build_graph_Some Hnd Hget.
  rewrite (entries_visit_nodes_known _ _ _ _ x Hb).
  - by rewrite (PyDictFacts.filter_key _ _ _ Hnd Hget).
  - simpl. apply elem_of_list_to_set, PyDictFacts.get_is_Some. by eexists.
Qed.

Lemma links_between_fmap a b nid (ids : list string) :
  links_between a b (link nid <$> ids)
  = if decide (nid = a) then link a <$> filter (λ n, n = b) ids else [].
Proof.
  unfold links_between. induction ids as [|n ids IH].
  - by case_decide.
  - rewrite fmap_cons, !filter_cons, IH. simpl.
    destruct (decide (nid = a)) as [->|Hne].
    + destruct (decide (n = b)) as [->|Hnb].
      * by rewrite decide_True.
      * by rewrite decide_False by tauto.
    + by rewrite decide_False by tauto.
Qed.

Lemma links_between_other a b ns :
  a ∉ PyDict.keys ns → links_between a b (links_of ns) = [].
Proof.
  unfold PyDict.keys. induction ns as [|[k v] ns IH]; [done |].
  simpl. intros [Hne Ha]%not_elem_of_cons.
  unfold links_between in *. rewrite filter_app, IH by done.
  fold (links_between a b (link k <$> filter (λ n, n ≠ "LOCAL") (ids_of v))).
  rewrite links_between_fmap. by rewrite decide_False by congruence.
Qed.

Lemma links_between_known a b ns info :
  NoDup (PyDict.keys ns) → PyDict.get ns a = Some info →
  links_between a b (links_of ns)
  = link a <$> filter (λ n, n = b) (filter (λ n, n ≠ "LOCAL") (ids_of info)).
Proof.
  unfold PyDict.keys. induction ns as [|[k v] ns IH]; [done |].
  simpl. intros [Hk Hnd]%NoDup_cons Hget.
  unfold links_between in *. rewrite filter_app.
  fold (links_between a b (link k <$> filter (λ n, n ≠ "LOCAL") (ids_of v))).
  rewrite links_between_fmap.
  destruct (decide (k = a)) as [->|Hne].
  - injection Hget as ->.
    fold (links_between a b (links_of ns)).
    rewrite links_between_other by done. by rewrite app_nil_r.
  - simpl. by apply IH.
Qed.

Lemma elem_of_links_of ns l :
  l ∈ links_of ns →
  ∃ nid info n, (nid, info) ∈ ns ∧ n ∈ ids_of info ∧ n ≠ "LOCAL"
    ∧ l = link nid n.
Proof.
  unfold links_of. intros ([nid info] & Hl & Hitem)%list_elem_of_bind.
  simpl in Hl. apply list_elem_of_fmap in Hl as (n & -> & Hn).
  apply list_elem_of_filter in Hn as [HL Hn]. by exists nid, info, n.
Qed.

Lemma elem_of_listed_ids ns nid info n :
  (nid, info) ∈ ns → n ∈ ids_of info → n ∈ listed_ids ns.
Proof.
  intros Hitem Hn. unfold listed_ids. apply list_elem_of_bind.
  by exists (nid, info).
Qed.

(** Reports whose neighbors are absent or a list of strings keep the store
    in the shape the build is modelled for. *)
Lemma shaped_init : shaped (nodes init).
Proof. apply Forall_nil_2. Qed.

Lemma shaped_set ns nid info :
  shaped ns → is_Some (neighbor_ids (neighbors info)) →
  shaped (PyDict.set nid info ns).
Proof.
  intros Hsh Hinfo. induction Hsh as [|[k v] ns Hv Hsh IH]; simpl.
  - by apply Forall_singleton.
  - case_decide; apply Forall_cons; auto.
Qed.

Lemma shaped_update_node node_id data now s :
  shaped (nodes s) →
  is_Some (neighbor_ids (PyDict.get_or data "neighbors" (PList []))) →
  shaped (nodes (exec (update_node node_id data now) s)).
Proof. intros Hsh Hdata. rewrite nodes_update_node. by apply shaped_set. Qed.
End graph.

(** * The claims *)

(** ** Command queues *)

(** C1, as stated, fails at the broadcast sentinel: on a fresh manager
    [queue_command("BROADCAST", "x")] followed by [get_commands("BROADCAST")]
    returns the empty sequence, not [["x"]]. *)
Lemma drain_exact_fails_at_sentinel :
  ¬ drain_exact "BROADCAST" init [QueueCommand "BROADCAST" "x"].
Proof. intros [Hret _]. vm_compute in Hret. discriminate Hret. Qed.

(** C1 (amended): for every node identifier [A] other than the broadcast
    sentinel and every sequence of calls, [get_commands(A)] returns exactly
    the commands enqueued for [A] since the last drain (those addressed to
    [A], and the broadcasts made while [A] was in the store), in enqueue
    order; it leaves the queue of [A] empty, and a second immediate
    [get_commands(A)] returns the empty sequence. *)
Theorem drain_exactness (A : string) (s : NetworkManager) (tr : list call) :
  A ≠ "BROADCAST" → wf s → drain_exact A s tr.
Proof.
  intros HA Hwf. unfold drain_exact. split_and!.
  - rewrite eval_get_commands. by apply queue_of_run.
  - rewrite queue_of_get_commands. by rewrite decide_True.
  - rewrite eval_get_commands, queue_of_get_commands. by rewrite decide_True.
Qed.

Lemma drain_exactness_witness :
  "A" ≠ "BROADCAST" ∧ wf init ∧
  drain_exact "A" init
    [QueueCommand "A" "c1"; QueueCommand "A" "c2"; GetCommands "A";
     QueueCommand "A" "c3"; UpdateNode "A" [] 0; QueueCommand "BROADCAST" "c4"].
Proof.
  assert (HA : "A" ≠ "BROADCAST") by by_eval.
  assert (Hwf : wf init) by by_eval.
  split; [exact HA |]. split; [exact Hwf |].
  exact (drain_exactness "A" init _ HA Hwf).
Defined.

(** C2: a broadcast appends the command to the queue of every identifier in
    the node store at that moment and touches no other queue; a node
    reported only afterwards polls what it had pending before, without the
    broadcast. *)
Theorem broadcast_snapshot (s : NetworkManager) (command : string) :
  wf s →
  let s' := exec (queue_command "BROADCAST" command) s in
  (∀ nid, nid ∈ PyDict.keys (nodes s) →
     pending_commands s' !! nid = Some (queue_of nid s ++ [command]))
  ∧ (∀ nid, nid ∉ PyDict.keys (nodes s) →
       pending_commands s' !! nid = pending_commands s !! nid)
  ∧ (∀ C data now, C ∉ PyDict.keys (nodes s) →
       eval (get_commands C) (exec (update_node C data now) s')
       = queue_of C s)
  ∧ nodes s' = nodes s.
Proof.
  intros Hwf s'. split_and!.
  - intros nid Hin. unfold s'.
    rewrite pending_queue_command_broadcast by done. by rewrite decide_True.
  - intros nid Hin. unfold s'.
    rewrite pending_queue_command_broadcast by done. by rewrite decide_False.
  - intros C data now HC.
    rewrite eval_get_commands, queue_of_update_node. unfold s', queue_of at 1.
    rewrite pending_queue_command_broadcast by done. by rewrite decide_False.
  - apply nodes_queue_command.
Qed.

Lemma broadcast_snapshot_witness :
  wf two_nodes ∧
  let s' := exec (queue_command "BROADCAST" "x") two_nodes in
  (∀ nid, nid ∈ PyDict.keys (nodes two_nodes) →
     pending_commands s' !! nid = Some (queue_of nid two_nodes ++ ["x"]))
  ∧ (∀ nid, nid ∉ PyDict.keys (nodes two_nodes) →
       pending_commands s' !! nid = pending_commands two_nodes !! nid)
  ∧ (∀ C data now, C ∉ PyDict.keys (nodes two_nodes) →
       eval (get_commands C) (exec (update_node C data now) s')
       = queue_of C two_nodes)
  ∧ nodes s' = nodes two_nodes.
Proof.
  assert (Hwf : wf two_nodes) by by_eval.
  split; [exact Hwf |]. exact (broadcast_snapshot two_nodes "x" Hwf).
Defined.

(** The spec's example, evaluated. *)
Example broadcast_snapshot_example :
  let s := exec (queue_command "BROADCAST" "x") two_nodes in
  eval (get_commands "C") (exec (update_node "C" [] 2) s) = []
  ∧ eval (get_commands "A") s = ["x"]
  ∧ eval (get_commands "B") s = ["x"].
Proof. vm_compute. done. Qed.

(** C8: [update_node(X, report)] creates an empty queue for [X] when there
    was none and keeps the queue of [X] as it was otherwise, as it keeps
    every other queue; so commands queued for [X] ahead of its first report
    are still returned by a later [get_commands(X)]. *)
Theorem update_node_keeps_queue (X : string) (data : list (string * pyval))
    (now : float) (s : NetworkManager) :
  let s' := exec (update_node X data now) s in
  (pending_commands s !! X = None → pending_commands s' !! X = Some [])
  ∧ (∀ q, pending_commands s !! X = Some q → pending_commands s' !! X = Some q)
  ∧ (∀ Y, Y ≠ X → pending_commands s' !! Y = pending_commands s !! Y)
  ∧ eval (get_commands X) s' = eval (get_commands X) s
  ∧ (∀ c, X ≠ "BROADCAST" →
       eval (get_commands X)
         (exec (update_node X data now) (exec (queue_command X c) s))
       = queue_of X s ++ [c]).
Proof.
  intros s'. unfold s'. split_and!.
  - intros Hnone. rewrite pending_update_node.
    rewrite decide_False by by apply not_elem_of_dom.
    apply lookup_insert_eq.
  - intros q Hq. rewrite pending_update_node.
    rewrite decide_True; [done |]. apply elem_of_dom. by exists q.
  - intros Y HY. rewrite pending_update_node. case_decide; [done |].
    by rewrite lookup_insert_ne.
  - by rewrite !eval_get_commands, queue_of_update_node.
  - intros c HX. rewrite eval_get_commands, queue_of_update_node.
    unfold queue_of at 1. rewrite pending_queue_command_direct by done.
    by rewrite lookup_insert_eq.
Qed.

Lemma update_node_keeps_queue_witness :
  "N1" ≠ "BROADCAST" ∧
  eval (get_commands "N1")
    (exec (update_node "N1" [("ip", PStr "10.0.0.1")] 3)
       (exec (queue_command "N1" "ping") init))
  = ["ping"].
Proof.
  assert (HX : "N1" ≠ "BROADCAST") by by_eval.
  split; [exact HX |].
  exact (proj2 (proj2 (proj2 (proj2
    (update_node_keeps_queue "N1" [("ip", PStr "10.0.0.1")] 3 init))))
    "ping" HX).
Defined.

(** C10: [queue_command("BROADCAST", c)] is always the fan-out over the
    node store and never a direct enqueue: with "BROADCAST" outside the
    store the queue keyed "BROADCAST" is untouched, with an empty store
    nothing changes at all, and whenever a [queue_command] changes what is
    pending under "BROADCAST" it is a broadcast made while "BROADCAST" is a
    stored node identifier. *)
Theorem sentinel_shadows_node_id (c : string) (s : NetworkManager) :
  exec (queue_command "BROADCAST" c) s
  = exec (for_each (PyDict.keys (nodes s)) (λ nid, append_command nid c)) s
  ∧ ("BROADCAST" ∉ PyDict.keys (nodes s) →
       pending_commands (exec (queue_command "BROADCAST" c) s) !! "BROADCAST"
       = pending_commands s !! "BROADCAST")
  ∧ (nodes s = [] → exec (queue_command "BROADCAST" c) s = s)
  ∧ (∀ node_id,
       pending_commands (exec (queue_command node_id c) s) !! "BROADCAST"
       ≠ pending_commands s !! "BROADCAST" →
       node_id = "BROADCAST" ∧ "BROADCAST" ∈ PyDict.keys (nodes s)).
Proof.
  split_and!.
  - apply fan_out_nil.
  - intros Hout. rewrite fan_out_nil. by apply pending_fan_out_other.
  - intros Hnil. rewrite fan_out_nil, Hnil. by destruct s.
  - intros node_id Hchg. destruct (decide (node_id = "BROADCAST")) as [->|Hne].
    + split; [done |]. apply dec_stable. intros Hout. apply Hchg.
      rewrite fan_out_nil. by apply pending_fan_out_other.
    + exfalso. apply Hchg. rewrite pending_queue_command_direct by done.
      by rewrite lookup_insert_ne.
Qed.

Lemma sentinel_shadows_node_id_witness :
  nodes init = [] ∧ exec (queue_command "BROADCAST" "x") init = init.
Proof.
  assert (Hnil : nodes init = []) by reflexivity.
  split; [exact Hnil |].
  exact (proj1 (proj2 (proj2 (sentinel_shadows_node_id "x" init))) Hnil).
Defined.

(** ** The node store *)

(** C3: [update_node(A, R1)] followed by [update_node(A, R2)] leaves for [A]
    the record built from [R2] alone, and the manager in the very state the
    single call [update_node(A, R2)] leaves it in. *)
Theorem update_node_overwrites (A : string) (R1 R2 : list (string * pyval))
    (t1 t2 : float) (s : NetworkManager) :
  let s2 := exec (update_node A R2 t2) (exec (update_node A R1 t1) s) in
  PyDict.get (nodes s2) A
  = Some {| last_seen := t2;
            routing_table := PyDict.get_or R2 "routing_table" (PDict []);
            neighbors := PyDict.get_or R2 "neighbors" (PList []);
            ip := PyDict.get_or R2 "ip" (PStr "");
            details := R2 |}
  ∧ s2 = exec (update_node A R2 t2) s.
Proof.
  intros s2. unfold s2. split.
  - rewrite nodes_update_node. apply PyDictFacts.get_set_eq.
  - apply manager_eq.
    + rewrite !nodes_update_node. apply PyDictFacts.set_set.
    + rewrite !pending_update_node.
      destruct (decide (A ∈ dom (pending_commands s))) as [Hin|Hout].
      * by rewrite decide_True.
      * rewrite decide_True; [done |]. rewrite dom_insert_L.
        apply elem_of_union_l, elem_of_singleton. done.
Qed.

(** C7, as stated, fails: after [update_node("A", {"ip": "10.0.0.1"})] the
    call [get_node_details("A")] returns the stored node dict, which has the
    keys last_seen, routing_table, neighbors, ip and details, not the
    report. *)
Lemma details_are_not_the_report :
  ¬ returns_raw_report "A" [("ip", PStr "10.0.0.1")] 1 init.
Proof. unfold returns_raw_report. vm_compute. discriminate. Qed.

(** C7 (amended): [get_node_details(X)] returns the node dict stored by the
    most recent [update_node(X, report)] (its time stamp, the routing table,
    neighbors and address taken from the report, and the report itself
    under "details") when [X] is known, and the empty dict when [X] was
    never reported; it leaves the store and the queues unchanged. *)
Theorem node_details_lookup (X : string) :
  (∀ report now s tr, no_update X tr →
     eval (get_node_details X) (run tr (exec (update_node X report now) s))
     = PDict [("last_seen", PFloat now);
              ("routing_table", PyDict.get_or report "routing_table" (PDict []));
              ("neighbors", PyDict.get_or report "neighbors" (PList []));
              ("ip", PyDict.get_or report "ip" (PStr ""));
              ("details", PDict report)])
  ∧ (∀ tr, no_update X tr → eval (get_node_details X) (run tr init) = PDict [])
  ∧ (∀ s, X ∉ PyDict.keys (nodes s) → eval (get_node_details X) s = PDict [])
  ∧ (∀ s, exec (get_node_details X) s = s).
Proof.
  assert (Hread : ∀ s, eval (get_node_details X) s
            = match PyDict.get (nodes s) X with
              | Some info => info_dict info | None => PDict [] end) by done.
  split_and!.
  - intros report now s tr Hno.
    rewrite Hread, get_nodes_run, nodes_update_node by done.
    by rewrite PyDictFacts.get_set_eq.
  - intros tr Hno. by rewrite Hread, get_nodes_run.
  - intros s Hout. rewrite Hread. by apply PyDictFacts.get_None in Hout as ->.
  - done.
Qed.

Lemma node_details_lookup_witness :
  no_update "A" [QueueCommand "A" "ping"; UpdateNode "B" [] 2; GetCommands "A"]
  ∧ eval (get_node_details "A")
      (run [QueueCommand "A" "ping"; UpdateNode "B" [] 2; GetCommands "A"]
         (exec (update_node "A" [("ip", PStr "10.0.0.1")] 1) init))
    = PDict [("last_seen", PFloat 1);
             ("routing_table", PDict []);
             ("neighbors", PList []);
             ("ip", PStr "10.0.0.1");
             ("details", PDict [("ip", PStr "10.0.0.1")])].
Proof.
  assert (Hno : no_update "A"
            [QueueCommand "A" "ping"; UpdateNode "B" [] 2; GetCommands "A"]).
  { unfold no_update. repeat constructor. by_eval. }
  split; [exact Hno |].
  exact (proj1 (node_details_lookup "A")
           [("ip", PStr "10.0.0.1")] 1%float init _ Hno).
Defined.

(** ** The topology graph *)

(** C4: in every build, a neighbor identifier that some known node lists,
    that is not in the node store and is not the self-reference marker has
    exactly one node entry in the graph, the ghost entry of the
    unknown/offline class, however many nodes list it; the build leaves the
    store as it was, so a later build makes the ghosts anew.  When node [A]
    lists exactly [[B]], the graph has exactly one link from [A] to [B]. *)
Theorem ghost_node_emergence (now : float) (s : NetworkManager) :
  wf s → shaped (nodes s) →
  ∃ g, eval (get_topology now) s = Some g
    ∧ (∀ A info B,
         PyDict.get (nodes s) A = Some info → B ∈ ids_of info →
         B ∉ PyDict.keys (nodes s) → B ≠ "LOCAL" →
         entries_for B (t_nodes g)
         = [{| g_id := B; g_name := B ++ " (?)"; g_val := 5;
               g_color := "#FFC107" |}])
    ∧ (∀ A info B,
         PyDict.get (nodes s) A = Some info →
         neighbors info = PList [PStr B] →
         B ∉ PyDict.keys (nodes s) → B ≠ "LOCAL" →
         entries_for B (t_nodes g) = [ghost_node B]
         ∧ links_between A B (t_links g)
           = [{| l_source := A; l_target := B; l_color := "#FFF" |}])
    ∧ nodes (exec (get_topology now) s) = nodes s
    ∧ eval (get_topology now) (exec (get_topology now) s) = Some g.
Proof.
  intros Hwf Hsh.
  destruct (build_graph_total now (nodes s) Hsh) as [g Hg]. exists g.
  assert (Hghost : ∀ A info B,
            PyDict.get (nodes s) A = Some info → B ∈ ids_of info →
            B ∉ PyDict.keys (nodes s) → B ≠ "LOCAL" →
            entries_for B (t_nodes g) = [ghost_node B]).
  { intros A info B Hget Hin Hout HL.
    rewrite (graph_ghost_entries _ _ _ _ Hg Hout).
    rewrite decide_True; [done |]. split; [| done].
    eapply elem_of_listed_ids; [| done]. by apply PyDictFacts.get_elem_of. }
  split_and!; [done | exact Hghost | | done | done].
  intros A info B Hget Hnb Hout HL.
  assert (Hids : ids_of info = [B]) by (unfold ids_of; by rewrite Hnb).
  split.
  - apply (Hghost A info); [done | | done | done].
    rewrite Hids. by apply list_elem_of_singleton.
  - rewrite (graph_links_all _ _ _ Hg).
    rewrite (links_between_known _ _ _ _ Hwf Hget), Hids.
    rewrite filter_cons, decide_True by done.
    by rewrite filter_cons, decide_True by done.
Qed.

(** C5: in every build each known node has one node entry, classified
    against the single reference time of the build: it is active exactly
    when reference time minus [last_seen], computed in binary64 as the code
    computes it, is below 5.0 (so when that difference is 4.9 the node is
    active and when it is 5.1 it is not), and the class fixes the weight
    (10 or 5) and the colour of the entry. *)
Theorem activity_classification (now : float) (s : NetworkManager) :
  wf s → shaped (nodes s) →
  ∃ g, eval (get_topology now) s = Some g
    ∧ ∀ nid info, PyDict.get (nodes s) nid = Some info →
        ((now - last_seen info <? 5)%float = true →
           entries_for nid (t_nodes g)
           = [{| g_id := nid; g_name := nid; g_val := 10;
                 g_color := "#4CAF50" |}])
        ∧ ((now - last_seen info <? 5)%float = false →
             entries_for nid (t_nodes g)
             = [{| g_id := nid; g_name := nid; g_val := 5;
                   g_color := "#9E9E9E" |}])
        ∧ ((now - last_seen info)%float = 4.9%float →
             entries_for nid (t_nodes g)
             = [{| g_id := nid; g_name := nid; g_val := 10;
                   g_color := "#4CAF50" |}])
        ∧ ((now - last_seen info)%float = 5.1%float →
             entries_for nid (t_nodes g)
             = [{| g_id := nid; g_name := nid; g_val := 5;
                   g_color := "#9E9E9E" |}]).
Proof.
  intros Hwf Hsh.
  destruct (build_graph_total now (nodes s) Hsh) as [g Hg]. exists g.
  split; [done |]. intros nid info Hget.
  rewrite (graph_known_entries _ _ _ _ _ Hg Hwf Hget). unfold is_active.
  split_and!.
  - by intros ->.
  - by intros ->.
  - by intros ->.
  - by intros ->.
Qed.

(** The subtraction is the rounded one: for a node last seen at 0.1 and a
    build at 5.1 the difference is exactly 5.0, and the node is shown
    inactive; at 5.0 the difference is below 5.0 and the node is active. *)
Example rounding_at_threshold :
  eval (get_topology 5.1) one_node
  = Some {| t_nodes := [known_node "n" false]; t_links := [] |}
  ∧ eval (get_topology 5) one_node
    = Some {| t_nodes := [known_node "n" true]; t_links := [] |}.
Proof. vm_compute. done. Qed.

(** C6: the marker 'LOCAL' is never the target of a link (the links are
    exactly one per listed neighbor other than the marker), and a node entry
    carries it as identifier only when 'LOCAL' is itself a stored node, in
    which case it is that node's entry and not a ghost. *)
Theorem self_marker_excluded (now : float) (s : NetworkManager) :
  wf s → shaped (nodes s) →
  ∃ g, eval (get_topology now) s = Some g
    ∧ t_links g = links_of (nodes s)
    ∧ (∀ l, l ∈ t_links g → l_target l ≠ "LOCAL")
    ∧ ("LOCAL" ∉ PyDict.keys (nodes s) → entries_for "LOCAL" (t_nodes g) = [])
    ∧ (∀ e, e ∈ t_nodes g → g_id e = "LOCAL" →
         ∃ info, PyDict.get (nodes s) "LOCAL" = Some info
           ∧ e = known_node "LOCAL" (is_active now info)).
Proof.
  intros Hwf Hsh.
  destruct (build_graph_total now (nodes s) Hsh) as [g Hg]. exists g.
  assert (Hno : "LOCAL" ∉ PyDict.keys (nodes s) →
            entries_for "LOCAL" (t_nodes g) = []).
  { intros Hout. rewrite (graph_ghost_entries _ _ _ _ Hg Hout).
    rewrite decide_False; [done |]. tauto. }
  split_and!; [done | by eapply graph_links_all | | exact Hno |].
  - intros l Hl. rewrite (graph_links_all _ _ _ Hg) in Hl.
    apply elem_of_links_of in Hl as (nid & info & n & _ & _ & Hn & ->). done.
  - intros e He Hid.
    assert (Hent : e ∈ entries_for "LOCAL" (t_nodes g))
      by by apply list_elem_of_filter.
    destruct (PyDict.get (nodes s) "LOCAL") as [info|] eqn:Hget.
    + exists info. split; [done |].
      rewrite (graph_known_entries _ _ _ _ _ Hg Hwf Hget) in Hent.
      by apply list_elem_of_singleton in Hent.
    + apply PyDictFacts.get_None in Hget. rewrite (Hno Hget) in Hent.
      by apply elem_of_nil in Hent.
Qed.

(** C9: [get_topology] leaves the node store and every command queue as
    they were, so dropping a [get_topology] call from a sequence of calls
    changes nothing in the state reached; the graph depends on the store
    and the reference time only, not on the command queues. *)
Theorem get_topology_pure (now : float) (s : NetworkManager) :
  exec (get_topology now) s = s
  ∧ (∀ tr1 tr2, run (tr1 ++ GetTopology now :: tr2) s = run (tr1 ++ tr2) s)
  ∧ (∀ p, eval (get_topology now)
            {| nodes := nodes s; pending_commands := p |}
          = eval (get_topology now) s)
  ∧ eval (get_topology now) (exec (get_topology now) s)
    = eval (get_topology now) s.
Proof.
  split_and!; try done.
  intros tr1 tr2. by rewrite !run_app, run_cons, exec_perform.
Qed.

Lemma ghost_node_emergence_witness :
  wf mesh ∧ shaped (nodes mesh) ∧
  ∃ g, eval (get_topology 20) mesh = Some g
    ∧ (∀ A info B,
         PyDict.get (nodes mesh) A = Some info → B ∈ ids_of info →
         B ∉ PyDict.keys (nodes mesh) → B ≠ "LOCAL" →
         entries_for B (t_nodes g)
         = [{| g_id := B; g_name := B ++ " (?)"; g_val := 5;
               g_color := "#FFC107" |}])
    ∧ (∀ A info B,
         PyDict.get (nodes mesh) A = Some info →
         neighbors info = PList [PStr B] →
         B ∉ PyDict.keys (nodes mesh) → B ≠ "LOCAL" →
         entries_for B (t_nodes g) = [ghost_node B]
         ∧ links_between A B (t_links g)
           = [{| l_source := A; l_target := B; l_color := "#FFF" |}])
    ∧ nodes (exec (get_topology 20) mesh) = nodes mesh
    ∧ eval (get_topology 20) (exec (get_topology 20) mesh) = Some g.
Proof.
  assert (Hwf : wf mesh) by by_eval.
  assert (Hsh : shaped (nodes mesh)) by by_eval.
  split; [exact Hwf |]. split; [exact Hsh |].
  exact (ghost_node_emergence 20 mesh Hwf Hsh).
Defined.

Lemma activity_classification_witness :
  wf mesh ∧ shaped (nodes mesh) ∧
  ∃ g, eval (get_topology 20) mesh = Some g
    ∧ ∀ nid info, PyDict.get (nodes mesh) nid = Some info →
        ((20 - last_seen info <? 5)%float = true →
           entries_for nid (t_nodes g)
           = [{| g_id := nid; g_name := nid; g_val := 10;
                 g_color := "#4CAF50" |}])
        ∧ ((20 - last_seen info <? 5)%float = false →
             entries_for nid (t_nodes g)
             = [{| g_id := nid; g_name := nid; g_val := 5;
                   g_color := "#9E9E9E" |}])
        ∧ ((20 - last_seen info)%float = 4.9%float →
             entries_for nid (t_nodes g)
             = [{| g_id := nid; g_name := nid; g_val := 10;
                   g_color := "#4CAF50" |}])
        ∧ ((20 - last_seen info)%float = 5.1%float →
             entries_for nid (t_nodes g)
             = [{| g_id := nid; g_name := nid; g_val := 5;
                   g_color := "#9E9E9E" |}]).
Proof.
  assert (Hwf : wf mesh) by by_eval.
  assert (Hsh : shaped (nodes mesh)) by by_eval.
  split; [exact Hwf |]. split; [exact Hsh |].
  exact (activity_classification 20 mesh Hwf Hsh).
Defined.

Lemma self_marker_excluded_witness :
  wf mesh ∧ shaped (nodes mesh) ∧
  ∃ g, eval (get_topology 20) mesh = Some g
    ∧ t_links g = links_of (nodes mesh)
    ∧ (∀ l, l ∈ t_links g → l_target l ≠ "LOCAL")
    ∧ ("LOCAL" ∉ PyDict.keys (nodes mesh) →
         entries_for "LOCAL" (t_nodes g) = [])
    ∧ (∀ e, e ∈ t_nodes g → g_id e = "LOCAL" →
         ∃ info, PyDict.get (nodes mesh) "LOCAL" = Some info
           ∧ e = known_node "LOCAL" (is_active 20 info)).
Proof.
  assert (Hwf : wf mesh) by by_eval.
  assert (Hsh : shaped (nodes mesh)) by by_eval.
  split; [exact Hwf |]. split; [exact Hsh |].
  exact (self_marker_excluded 20 mesh Hwf Hsh).
Defined.

(** The graph of the sample store, evaluated: one ghost entry each for B, D
    and E although B is listed three times, no entry and no link for the
    marker, A stale and C and E1 active. *)
Example mesh_topology :
  eval (get_topology 20) mesh
  = Some {| t_nodes :=
              [known_node "A" false; ghost_node "B"; known_node "C" true;
               ghost_node "D"; known_node "E1" true; ghost_node "E"];
            t_links :=
              [link "A" "B"; link "A" "C"; link "A" "B"; link "C" "A";
               link "C" "D"; link "C" "B"; link "E1" "E"] |}.
Proof. vm_compute. reflexivity. Qed.

(** * Further properties of the manager *)

(** ** What the calls do to the store and the queues *)

Section history.
Implicit Types (s : NetworkManager) (tr : list call) (nid : string).

Lemma pending_mono_append nid k command s :
  is_Some (pending_commands s !! nid) →
  is_Some (pending_commands (exec (append_command k command) s) !! nid).
Proof.
  intros Hsome. rewrite pending_append_command.
  destruct (decide (k = nid)) as [->|Hne].
  - rewrite lookup_insert_eq. by eexists.
  - by rewrite lookup_insert_ne.
Qed.

Lemma pending_mono_fan_out nid ks command s :
  is_Some (pending_commands s !! nid) →
  is_Some (pending_commands
             (exec (for_each ks (λ k, append_command k command)) s) !! nid).
Proof.
  revert s. induction ks as [|k ks IH]; intros s Hsome; [done |].
  rewrite exec_for_each_cons. by apply IH, pending_mono_append.
Qed.

Lemma pending_mono_perform c nid s :
  is_Some (pending_commands s !! nid) →
  is_Some (pending_commands (exec (perform c) s) !! nid).
Proof.
  intros Hsome. rewrite exec_perform.
  destruct c as [B data now|B|B cmd|now|B]; try done.
  - rewrite pending_update_node. case_decide; [done |].
    destruct (decide (B = nid)) as [->|Hne].
    + rewrite lookup_insert_eq. by eexists.
    + by rewrite lookup_insert_ne.
  - rewrite pending_get_commands. destruct (decide (B = nid)) as [->|Hne].
    + rewrite lookup_insert_eq. by eexists.
    + by rewrite lookup_insert_ne.
  - unfold queue_command. case_decide.
    + by apply pending_mono_fan_out.
    + by apply pending_mono_append.
Qed.

Lemma nodes_perform c s :
  nodes (exec (perform c) s)
  = match c with
    | UpdateNode B data now => PyDict.set B (make_info now data) (nodes s)
    | _ => nodes s
    end.
Proof.
  rewrite exec_perform. destruct c as [B data now|B|B cmd|now|B]; try done.
  - apply nodes_update_node.
  - apply nodes_queue_command.
Qed.

Lemma keys_set_add_new {V} (d : list (string * V)) k v :
  PyDict.keys (PyDict.set k v d) = add_new (PyDict.keys d) k.
Proof.
  unfold add_new. case_decide.
  - by apply PyDictFacts.keys_set_old.
  - by apply PyDictFacts.keys_set_new.
Qed.

Lemma keys_run tr s :
  PyDict.keys (nodes (run tr s))
  = foldl add_new (PyDict.keys (nodes s)) (reported tr).
Proof.
  revert s. induction tr as [|c tr IH]; intros s; [done |].
  rewrite run_cons, IH, nodes_perform.
  destruct c as [B data now|B|B cmd|now|B]; try done.
  unfold reported. simpl. by rewrite keys_set_add_new.
Qed.

Lemma elem_of_add_new acc x y : y ∈ add_new acc x ↔ y ∈ acc ∨ y = x.
Proof.
  unfold add_new. case_decide.
  - split; [auto | by intros [?| ->]].
  - by rewrite elem_of_app, list_elem_of_singleton.
Qed.

Lemma elem_of_foldl_add_new l acc y :
  y ∈ foldl add_new acc l ↔ y ∈ acc ∨ y ∈ l.
Proof.
  revert acc. induction l as [|x l IH]; intros acc; simpl.
  - rewrite elem_of_nil. tauto.
  - rewrite IH, elem_of_add_new, elem_of_cons. tauto.
Qed.

Lemma foldl_add_new_NoDup l acc :
  NoDup (acc ++ l) → foldl add_new acc l = acc ++ l.
Proof.
  revert acc. induction l as [|x l IH]; intros acc Hnd; simpl.
  - by rewrite app_nil_r.
  - assert (Hx : x ∉ acc).
    { apply NoDup_app in Hnd as (_ & Hdisj & _). intros Hin.
      apply (Hdisj x Hin). apply elem_of_cons. by left. }
    unfold add_new at 2. rewrite decide_False by done.
    rewrite IH; [by rewrite <- app_assoc |]. by rewrite <- app_assoc.
Qed.

Lemma prefix_add_new acc x : acc `prefix_of` add_new acc x.
Proof.
  unfold add_new. case_decide; [done |]. by apply prefix_app_r.
Qed.

Lemma prefix_foldl_add_new l acc : acc `prefix_of` foldl add_new acc l.
Proof.
  revert acc. induction l as [|x l IH]; intros acc; simpl; [done |].
  etrans; [apply prefix_add_new | apply IH].
Qed.
End history.

(** X1: in every state reached from a fresh manager, each node of the store
    has a command queue. *)
Theorem stored_nodes_have_queues (tr : list call) (nid : string) :
  nid ∈ PyDict.keys (nodes (run tr init)) →
  is_Some (pending_commands (run tr init) !! nid).
Proof.
  assert (Hinv : ∀ tr s,
            (∀ k, k ∈ PyDict.keys (nodes s) →
                  is_Some (pending_commands s !! k)) →
            ∀ k, k ∈ PyDict.keys (nodes (run tr s)) →
                 is_Some (pending_commands (run tr s) !! k)).
  { clear. intros tr. induction tr as [|c tr IH]; intros s Hs; [done |].
    rewrite run_cons. apply IH. intros k. rewrite nodes_perform.
    destruct c as [B data now|B|B cmd|now|B];
      try (intros Hk; apply pending_mono_perform; by apply Hs).
    rewrite PyDictFacts.elem_of_keys_set. intros [->|Hk].
    - rewrite exec_perform, pending_update_node. case_decide as Hdom.
      + by apply elem_of_dom.
      + rewrite lookup_insert_eq. by eexists.
    - apply pending_mono_perform. by apply Hs. }
  apply Hinv. simpl. by intros k ?%elem_of_nil.
Qed.

Lemma stored_nodes_have_queues_witness :
  "B" ∈ PyDict.keys (nodes (run [UpdateNode "A" [] 0; UpdateNode "B" [] 1] init))
  ∧ is_Some (pending_commands
               (run [UpdateNode "A" [] 0; UpdateNode "B" [] 1] init) !! "B").
Proof.
  assert (Hin : "B" ∈ PyDict.keys
                  (nodes (run [UpdateNode "A" [] 0; UpdateNode "B" [] 1] init)))
    by by_eval.
  split; [exact Hin |].
  exact (stored_nodes_have_queues [UpdateNode "A" [] 0; UpdateNode "B" [] 1]
           "B" Hin).
Defined.

(** X2: the node store holds exactly the identifiers that have reported:
    after any calls on a fresh manager its keys are the reported identifiers
    in the order of their first report, each once. *)
Theorem store_is_first_reports (tr : list call) :
  PyDict.keys (nodes (run tr init)) = foldl add_new [] (reported tr)
  ∧ (∀ nid, nid ∈ PyDict.keys (nodes (run tr init)) ↔ nid ∈ reported tr)
  ∧ NoDup (PyDict.keys (nodes (run tr init))).
Proof.
  split_and!.
  - apply keys_run.
  - intros nid. rewrite keys_run, elem_of_foldl_add_new. simpl.
    rewrite elem_of_nil. tauto.
  - apply (wf_run tr init), wf_init.
Qed.

(** X3: no call removes a node or a queue, and no call moves a node: the
    keys of the store before a sequence of calls are a prefix of the keys
    after it, and every queue that existed still exists. *)
Theorem store_only_grows (tr : list call) (s : NetworkManager) :
  PyDict.keys (nodes s) `prefix_of` PyDict.keys (nodes (run tr s))
  ∧ dom (pending_commands s) ⊆ dom (pending_commands (run tr s)).
Proof.
  split.
  - rewrite keys_run. apply prefix_foldl_add_new.
  - revert s. induction tr as [|c tr IH]; intros s; [done |].
    rewrite run_cons. etrans; [| apply IH].
    intros k Hk. apply elem_of_dom, pending_mono_perform.
    by apply elem_of_dom.
Qed.

(** X4: reports from pairwise distinct identifiers are all stored, none lost
    and none merged: the keys of the store are the reported identifiers in
    report order. *)
Theorem distinct_reports_all_stored (tr : list call) :
  NoDup (reported tr) →
  PyDict.keys (nodes (run tr init)) = reported tr
  ∧ length (nodes (run tr init)) = length (reported tr).
Proof.
  intros Hnd.
  assert (Hkeys : PyDict.keys (nodes (run tr init)) = reported tr).
  { rewrite keys_run. simpl. by rewrite foldl_add_new_NoDup. }
  split; [done |].
  rewrite <- Hkeys. unfold PyDict.keys. by rewrite length_fmap.
Qed.

Lemma distinct_reports_all_stored_witness :
  NoDup (reported [UpdateNode "N2" [] 0; QueueCommand "N1" "c";
                   UpdateNode "N1" [] 1; UpdateNode "N3" [] 1])
  ∧ PyDict.keys
      (nodes (run [UpdateNode "N2" [] 0; QueueCommand "N1" "c";
                   UpdateNode "N1" [] 1; UpdateNode "N3" [] 1] init))
    = ["N2"; "N1"; "N3"].
Proof.
  assert (Hnd : NoDup (reported [UpdateNode "N2" [] 0; QueueCommand "N1" "c";
                                 UpdateNode "N1" [] 1; UpdateNode "N3" [] 1]))
    by by_eval.
  split; [exact Hnd |].
  exact (proj1 (distinct_reports_all_stored _ Hnd)).
Defined.

(** X5: no command is lost, duplicated or reordered across polls: for a
    node identifier [A] other than the sentinel, what the [get_commands(A)]
    calls of a sequence return, followed by what is still pending at its
    end, is what was pending at its start followed by the commands enqueued
    for [A], in enqueue order. *)
Theorem commands_conserved (A : string) (tr : list call) (s : NetworkManager) :
  A ≠ "BROADCAST" → wf s →
  delivered A tr s ++ queue_of A (run tr s)
  = queue_of A s
    ++ addressed A (bool_decide (A ∈ PyDict.keys (nodes s))) tr.
Proof.
  intros HA. revert s. induction tr as [|c tr IH]; intros s Hwf.
  - simpl. by rewrite app_nil_r.
  - rewrite run_cons. cbn [delivered]. rewrite <- app_assoc.
    rewrite IH by by apply wf_perform.
    rewrite nodes_perform, exec_perform.
    destruct c as [B data now|B|B cmd|now|B]; cbn [addressed]; try done.
    + rewrite queue_of_update_node. simpl. do 2 f_equal.
      destruct (decide (B = A)) as [->|Hne].
      * rewrite (bool_decide_eq_true_2 (A = A)) by done.
        rewrite orb_true_r. apply bool_decide_eq_true_2.
        apply PyDictFacts.elem_of_keys_set. by left.
      * rewrite (bool_decide_eq_false_2 (B = A)) by done.
        rewrite orb_false_r. apply bool_decide_ext.
        rewrite PyDictFacts.elem_of_keys_set. intuition congruence.
    + rewrite queue_of_get_commands, eval_get_commands.
      destruct (decide (B = A)) as [->|Hne].
      * by rewrite decide_True by done.
      * by rewrite decide_False by congruence.
    + rewrite queue_of_queue_command by done. simpl.
      destruct (decide (B = A)) as [->|Hne].
      * rewrite decide_False by done. rewrite decide_True by done.
        by rewrite <- app_assoc.
      * destruct (decide (B = "BROADCAST")) as [->|HB].
        -- case_bool_decide.
           ++ rewrite decide_True by done. by rewrite <- app_assoc.
           ++ by rewrite decide_False by done.
        -- by rewrite decide_False by congruence.
Qed.

Lemma commands_conserved_witness :
  "A" ≠ "BROADCAST" ∧ wf init ∧
  delivered "A"
    [QueueCommand "A" "c1"; GetCommands "A"; UpdateNode "A" [] 0;
     QueueCommand "BROADCAST" "c2"; QueueCommand "A" "c3"; GetCommands "A";
     QueueCommand "A" "c4"] init
  ++ queue_of "A"
       (run [QueueCommand "A" "c1"; GetCommands "A"; UpdateNode "A" [] 0;
             QueueCommand "BROADCAST" "c2"; QueueCommand "A" "c3";
             GetCommands "A"; QueueCommand "A" "c4"] init)
  = ["c1"; "c2"; "c3"; "c4"].
Proof.
  assert (HA : "A" ≠ "BROADCAST") by by_eval.
  assert (Hwf : wf init) by by_eval.
  split; [exact HA |]. split; [exact Hwf |].
  exact (commands_conserved "A" _ init HA Hwf).
Defined.

(** X6: unless "BROADCAST" is itself a stored node, a broadcast leaves the
    manager in the state that addressing the command to each stored node in
    turn, in store order, leaves it in. *)
Theorem broadcast_is_one_command_each (c : string) (s : NetworkManager) :
  "BROADCAST" ∉ PyDict.keys (nodes s) →
  exec (queue_command "BROADCAST" c) s
  = run ((λ nid, QueueCommand nid c) <$> PyDict.keys (nodes s)) s.
Proof.
  rewrite fan_out_nil. generalize (PyDict.keys (nodes s)) as ks.
  intros ks. revert s. induction ks as [|k ks IH]; intros s Hout; [done |].
  apply not_elem_of_cons in Hout as [Hne Hout].
  rewrite exec_for_each_cons, fmap_cons, run_cons, exec_perform, IH by done.
  f_equal. unfold queue_command. by rewrite decide_False by congruence.
Qed.

Lemma broadcast_is_one_command_each_witness :
("BROADCAST" ∉ PyDict.keys (nodes two_nodes))
  ∧ exec (queue_command "BROADCAST" "x") two_nodes
    = run [QueueCommand "A" "x"; QueueCommand "B" "x"] two_nodes.
Proof.
  assert (Hout : "BROADCAST" ∉ PyDict.keys (nodes two_nodes)) by by_eval.
  split; [exact Hout |].
  exact (broadcast_is_one_command_each "x" two_nodes Hout).
Defined.

(** X7: commands addressed to two different nodes do not interfere: the two
    [queue_command] calls reach the same state in either order. *)
Theorem direct_commands_commute (A B c1 c2 : string) (s : NetworkManager) :
  A ≠ B → A ≠ "BROADCAST" → B ≠ "BROADCAST" →
  exec (queue_command B c2) (exec (queue_command A c1) s)
  = exec (queue_command A c1) (exec (queue_command B c2) s).
Proof.
  intros Hne HA HB. apply manager_eq.
  - by rewrite !nodes_queue_command.
  - rewrite !pending_queue_command_direct by done.
    unfold queue_of. rewrite !pending_queue_command_direct by done.
    rewrite !lookup_insert_ne by done. by apply insert_insert_ne.
Qed.

Lemma direct_commands_commute_witness :
  "A" ≠ "B" ∧ "A" ≠ "BROADCAST" ∧ "B" ≠ "BROADCAST"
  ∧ exec (queue_command "B" "c2") (exec (queue_command "A" "c1") two_nodes)
    = exec (queue_command "A" "c1") (exec (queue_command "B" "c2") two_nodes).
Proof.
  assert (Hne : "A" ≠ "B") by by_eval.
  assert (HA : "A" ≠ "BROADCAST") by by_eval.
  assert (HB : "B" ≠ "BROADCAST") by by_eval.
  split; [exact Hne |]. split; [exact HA |]. split; [exact HB |].
  exact (direct_commands_commute "A" "B" "c1" "c2" two_nodes Hne HA HB).
Defined.

(** X8: only [update_node] writes the node store: a sequence of calls with
    no report among them leaves the store, and with it the graph built at
    any time, as it was. *)
Theorem only_reports_change_topology (tr : list call) (s : NetworkManager) :
  no_reports tr →
  nodes (run tr s) = nodes s
  ∧ ∀ now, eval (get_topology now) (run tr s) = eval (get_topology now) s.
Proof.
  intros Hno.
  assert (Hnodes : nodes (run tr s) = nodes s).
  { revert s. induction Hno as [|c tr Hc Hno IH]; intros s; [done |].
    rewrite run_cons, IH, nodes_perform. by destruct c. }
  split; [done |]. intros now. by rewrite !eval_get_topology, Hnodes.
Qed.

Lemma only_reports_change_topology_witness :
  no_reports [QueueCommand "Z" "c"; GetCommands "Y"; QueueCommand "BROADCAST" "d"]
  ∧ nodes (run [QueueCommand "Z" "c"; GetCommands "Y";
                QueueCommand "BROADCAST" "d"] mesh)
    = nodes mesh.
Proof.
  assert (Hno : no_reports [QueueCommand "Z" "c"; GetCommands "Y";
                            QueueCommand "BROADCAST" "d"]).
  { unfold no_reports. repeat constructor. }
  split; [exact Hno |].
  exact (proj1 (only_reports_change_topology _ mesh Hno)).
Defined.

(** ** The node entries of a build, in order *)

Section node_list.
Variable K : list string.
Implicit Types (b : build) (n nid : string) (ids acc : list string).

Lemma store_entries_visit_neighbors nid ids b :
  (∀ x, x ∈ K → x ∈ known_ids b) →
  filter (λ e, g_id e ∈ K) (graph_nodes (foldl (visit_neighbor nid) b ids))
  = filter (λ e, g_id e ∈ K) (graph_nodes b).
Proof.
  revert b. induction ids as [|n ids IH]; intros b HK; [done |].
  simpl. rewrite IH.
  - rewrite nodes_visit_neighbor, filter_app.
    destruct (decide ((n ∉ known_ids b) ∧ n ≠ "LOCAL")) as [[Hn _]|_].
    + rewrite filter_cons, decide_False; [by rewrite app_nil_r |].
      simpl. intros Hin. by apply Hn, HK.
    + by rewrite app_nil_r.
  - intros x Hx. apply known_visit_neighbor. left. by apply HK.
Qed.

Lemma store_entries_visit_nodes now items b b' :
  visit_nodes now b items = Some b' →
  (∀ x, x ∈ K → x ∈ known_ids b) →
  Forall (λ item, item.1 ∈ K) items →
  filter (λ e, g_id e ∈ K) (graph_nodes b')
  = filter (λ e, g_id e ∈ K) (graph_nodes b)
    ++ ((λ item, known_node item.1 (is_active now item.2)) <$> items).
Proof.
  revert b. induction items as [|[nid info] items IH]; intros b.
  - intros [= <-] _ _. by rewrite app_nil_r.
  - intros (b1 & (ids & _ & Hids & ->)%visit_node_Some & Hrest)%visit_nodes_cons.
    intros HK [Hnid Hitems]%Forall_cons. simpl in Hnid.
    rewrite (IH _ Hrest).
    + rewrite store_entries_visit_neighbors by done. simpl.
      rewrite filter_app, filter_cons, decide_True by done.
      by rewrite <- app_assoc.
    + intros x Hx. apply known_visit_neighbors. left. by apply HK.
    + done.
Qed.

Lemma ghosts_visit_neighbor nid n b acc :
  ghosts_are K b acc →
  ghosts_are K (visit_neighbor nid b n)
    (foldl add_new acc (filter (λ n, (n ∉ K) ∧ n ≠ "LOCAL") [n])).
Proof.
  intros [Hknown Hnodes]. split.
  - intros x. rewrite known_visit_neighbor, Hknown.
    rewrite elem_of_foldl_add_new, list_elem_of_filter.
    rewrite list_elem_of_singleton.
    split; [| intros [?|[?|[[_ ?] ->]]]; auto].
    intros [[?|?]|[-> HL]]; auto.
    destruct (decide (n ∈ K)); auto.
  - rewrite nodes_visit_neighbor, filter_app, Hnodes.
    destruct (decide ((n ∉ K) ∧ n ≠ "LOCAL")) as [[HnK HL]|Hno].
    + rewrite (filter_cons_True (λ n, (n ∉ K) ∧ n ≠ "LOCAL")) by done.
      simpl. unfold add_new.
      destruct (decide (n ∈ acc)) as [Hacc|Hacc].
      * rewrite decide_False; [by rewrite app_nil_r |].
        intros [Hn _]. apply Hn, Hknown. auto.
      * rewrite decide_True.
        -- rewrite filter_cons, decide_True by done.
           by rewrite fmap_app.
        -- split; [| done]. intros [?|?]%Hknown; done.
    + rewrite (filter_cons_False (λ n, (n ∉ K) ∧ n ≠ "LOCAL")) by done.
      rewrite filter_nil. simpl.
      destruct (decide ((n ∉ known_ids b) ∧ n ≠ "LOCAL")) as [[Hn HL]|_].
      * exfalso. apply Hno. split; [| done].
        intros HnK. apply Hn, Hknown. auto.
      * by rewrite filter_nil, app_nil_r.
Qed.

Lemma ghosts_visit_neighbors nid ids b acc :
  ghosts_are K b acc →
  ghosts_are K (foldl (visit_neighbor nid) b ids)
    (foldl add_new acc (filter (λ n, (n ∉ K) ∧ n ≠ "LOCAL") ids)).
Proof.
  revert b acc. induction ids as [|n ids IH]; intros b acc Hb; [done |].
  change (n :: ids) with ([n] ++ ids). rewrite filter_app, !foldl_app.
  apply IH. by apply ghosts_visit_neighbor.
Qed.

Lemma ghosts_visit_nodes now items b b' acc :
  visit_nodes now b items = Some b' →
  Forall (λ item, item.1 ∈ K) items →
  ghosts_are K b acc →
  ghosts_are K b'
    (foldl add_new acc
       (filter (λ n, (n ∉ K) ∧ n ≠ "LOCAL") (listed_ids items))).
Proof.
  revert b acc. induction items as [|[nid info] items IH]; intros b acc.
  - by intros [= <-] _ ?.
  - intros (b1 & (ids & _ & Hids & ->)%visit_node_Some & Hrest)%visit_nodes_cons.
    intros [Hnid Hitems]%Forall_cons [Hknown Hnodes]. simpl in Hnid.
    unfold listed_ids. simpl. fold (listed_ids items).
    rewrite Hids, filter_app, foldl_app.
    apply (IH _ _ Hrest Hitems). apply ghosts_visit_neighbors.
    split; [done |]. simpl.
    rewrite filter_app, filter_cons, decide_False by (simpl; tauto).
    by rewrite app_nil_r.
Qed.
End node_list.

Lemma length_filter_split {A} (P : A → Prop) `{!∀ x, Decision (P x)}
    (l : list A) :
  length l = length (filter P l) + length (filter (λ x, ¬ P x) l).
Proof.
  induction l as [|a l IH]; [done |].
  rewrite !filter_cons. destruct (decide (P a)) as [Ha|Ha].
  - rewrite decide_False by tauto. simpl. lia.
  - rewrite decide_True by done. simpl. lia.
Qed.

Lemma NoDup_fmap_by_filter {A} (f : A → string) (l : list A) :
  (∀ x, (length (filter (λ e, f e = x) l) ≤ 1)%nat) → NoDup (f <$> l).
Proof.
  induction l as [|a l IH]; intros Hone; [apply NoDup_nil_2 |].
  rewrite fmap_cons. apply NoDup_cons. split.
  - intros (e & Hfe & He)%list_elem_of_fmap.
    specialize (Hone (f a)). rewrite filter_cons_True in Hone by done.
    assert (Hin : e ∈ filter (λ e, f e = f a) l)
      by by apply list_elem_of_filter.
    destruct (filter (λ e, f e = f a) l); [by apply elem_of_nil in Hin |].
    simpl in Hone. lia.
  - apply IH. intros x. specialize (Hone x). rewrite filter_cons in Hone.
    case_decide; simpl in Hone; lia.
Qed.

Lemma keys_Forall {V} (d : list (string * V)) :
  Forall (λ item, item.1 ∈ PyDict.keys d) d.
Proof.
  apply Forall_forall. intros [k v] Hin. simpl.
  apply list_elem_of_fmap. by exists (k, v).
Qed.

Lemma fmap_filter_eq a b (ids : list string) :
  link a <$> filter (λ n, n = b) ids
  = replicate (length (filter (λ n, n = b) ids)) (link a b).
Proof.
  induction ids as [|n ids IH]; [done |].
  rewrite filter_cons. destruct (decide (n = b)) as [->|Hne]; [| done].
  rewrite fmap_cons, IH. done.
Qed.

Lemma graph_store_entries now ns g :
  build_graph now ns = Some g →
  filter (λ e, g_id e ∈ PyDict.keys ns) (t_nodes g)
  = (λ item, known_node item.1 (is_active now item.2)) <$> ns.
Proof.
  intros (b & Hb & -> & _)%build_graph_Some.
  rewrite (store_entries_visit_nodes _ _ _ _ _ Hb); [done | |].
  - intros x Hx. simpl. by apply elem_of_list_to_set.
  - apply keys_Forall.
Qed.

(** ** The graph as a whole *)

(** X9: the node entries of the stored nodes come in store order, one per
    node, whatever ghosts are made between them. *)
Theorem known_entries_in_store_order (now : float) (s : NetworkManager) :
  shaped (nodes s) →
  ∃ g, eval (get_topology now) s = Some g
    ∧ filter (λ e, g_id e ∈ PyDict.keys (nodes s)) (t_nodes g)
      = (λ item, known_node item.1 (is_active now item.2)) <$> nodes s.
Proof.
  intros Hsh. destruct (build_graph_total now (nodes s) Hsh) as [g Hg].
  exists g. split; [done |]. by apply graph_store_entries.
Qed.

Lemma known_entries_in_store_order_witness :
  shaped (nodes mesh)
  ∧ ∃ g, eval (get_topology 20) mesh = Some g
      ∧ filter (λ e, g_id e ∈ PyDict.keys (nodes mesh)) (t_nodes g)
        = (λ item, known_node item.1 (is_active 20 item.2)) <$> nodes mesh.
Proof.
  assert (Hsh : shaped (nodes mesh)) by by_eval.
  split; [exact Hsh |]. exact (known_entries_in_store_order 20 mesh Hsh).
Defined.

(** X10: the ghost entries are those of the listed identifiers that are
    neither stored nor 'LOCAL', one each, in the order of their first
    mention; the graph has as many node entries as the store has nodes plus
    that many ghosts. *)
Theorem ghost_entries_in_mention_order (now : float) (s : NetworkManager) :
  shaped (nodes s) →
  let unknown :=
    foldl add_new []
      (filter (λ n, (n ∉ PyDict.keys (nodes s)) ∧ n ≠ "LOCAL")
         (listed_ids (nodes s))) in
  ∃ g, eval (get_topology now) s = Some g
    ∧ filter (λ e, g_id e ∉ PyDict.keys (nodes s)) (t_nodes g)
      = ghost_node <$> unknown
    ∧ length (t_nodes g) = length (nodes s) + length unknown.
Proof.
  intros Hsh unknown.
  destruct (build_graph_total now (nodes s) Hsh) as [g Hg].
  pose proof (graph_store_entries _ _ _ Hg) as Hknown.
  exists g. split; [done |].
  destruct (build_graph_Some _ _ _ Hg) as (b & Hb & Hn & _).
  assert (Hgh : ghosts_are (PyDict.keys (nodes s)) b unknown).
  { apply (ghosts_visit_nodes _ now (nodes s) _ b [] Hb (keys_Forall _)).
    split; simpl; [| done]. intros x.
    rewrite elem_of_list_to_set, elem_of_nil. tauto. }
  destruct Hgh as [_ Hghost]. rewrite Hn. split; [done |].
  rewrite (length_filter_split (λ e, g_id e ∈ PyDict.keys (nodes s))).
  rewrite Hghost, <- Hn, Hknown. by rewrite !length_fmap.
Qed.

Lemma ghost_entries_in_mention_order_witness :
  shaped (nodes mesh)
  ∧ ∃ g, eval (get_topology 20) mesh = Some g
      ∧ filter (λ e, g_id e ∉ PyDict.keys (nodes mesh)) (t_nodes g)
        = ghost_node <$> ["B"; "D"; "E"]
      ∧ length (t_nodes g) = length (nodes mesh) + 3.
Proof.
  assert (Hsh : shaped (nodes mesh)) by by_eval.
  split; [exact Hsh |]. exact (ghost_entries_in_mention_order 20 mesh Hsh).
Defined.

Lemma id_in_graph now ns g x :
  build_graph now ns = Some g → NoDup (PyDict.keys ns) →
  x ∈ PyDict.keys ns ∨ (x ∈ listed_ids ns ∧ x ≠ "LOCAL") →
  x ∈ g_id <$> t_nodes g.
Proof.
  intros Hg Hnd Hx.
  assert (Hent : ∃ e, entries_for x (t_nodes g) = [e]).
  { destruct (PyDict.get ns x) as [info|] eqn:Hget.
    - eexists. by apply (graph_known_entries _ _ _ _ _ Hg Hnd Hget).
    - apply PyDictFacts.get_None in Hget.
      rewrite (graph_ghost_entries _ _ _ _ Hg Hget).
      destruct Hx as [?|Hx]; [done |].
      rewrite decide_True by done. by eexists. }
  destruct Hent as [e He].
  assert (Hin : e ∈ entries_for x (t_nodes g))
    by (rewrite He; by apply list_elem_of_singleton).
  apply list_elem_of_filter in Hin as [Hid Hin].
  apply list_elem_of_fmap. by exists e.
Qed.

(** X11: no two node entries of a graph carry the same identifier. *)
Theorem graph_ids_unique (now : float) (s : NetworkManager) :
  wf s → shaped (nodes s) →
  ∃ g, eval (get_topology now) s = Some g ∧ NoDup (g_id <$> t_nodes g).
Proof.
  intros Hwf Hsh. destruct (build_graph_total now (nodes s) Hsh) as [g Hg].
  exists g. split; [done |]. apply NoDup_fmap_by_filter. intros x.
  fold (entries_for x (t_nodes g)).
  destruct (PyDict.get (nodes s) x) as [info|] eqn:Hget.
  - by rewrite (graph_known_entries _ _ _ _ _ Hg Hwf Hget).
  - apply PyDictFacts.get_None in Hget.
    rewrite (graph_ghost_entries _ _ _ _ Hg Hget). case_decide; simpl; lia.
Qed.

Lemma graph_ids_unique_witness :
  wf mesh ∧ shaped (nodes mesh)
  ∧ ∃ g, eval (get_topology 20) mesh = Some g ∧ NoDup (g_id <$> t_nodes g).
Proof.
  assert (Hwf : wf mesh) by by_eval.
  assert (Hsh : shaped (nodes mesh)) by by_eval.
  split; [exact Hwf |]. split; [exact Hsh |].
  exact (graph_ids_unique 20 mesh Hwf Hsh).
Defined.

(** X12: every link of a graph starts at a stored node and both its ends
    are identifiers of node entries of that graph. *)
Theorem links_have_endpoints (now : float) (s : NetworkManager) :
  wf s → shaped (nodes s) →
  ∃ g, eval (get_topology now) s = Some g
    ∧ ∀ l, l ∈ t_links g →
        l_source l ∈ PyDict.keys (nodes s)
        ∧ l_source l ∈ g_id <$> t_nodes g
        ∧ l_target l ∈ g_id <$> t_nodes g.
Proof.
  intros Hwf Hsh. destruct (build_graph_total now (nodes s) Hsh) as [g Hg].
  exists g. split; [done |]. intros l Hl.
  rewrite (graph_links_all _ _ _ Hg) in Hl.
  apply elem_of_links_of in Hl as (nid & info & n & Hitem & Hn & HL & ->).
  assert (Hnid : nid ∈ PyDict.keys (nodes s)).
  { apply list_elem_of_fmap. by exists (nid, info). }
  simpl. split_and!; [done | |].
  - apply (id_in_graph _ _ _ _ Hg Hwf). by left.
  - apply (id_in_graph _ _ _ _ Hg Hwf). right. split; [| done].
    by eapply elem_of_listed_ids.
Qed.

Lemma links_have_endpoints_witness :
  wf mesh ∧ shaped (nodes mesh)
  ∧ ∃ g, eval (get_topology 20) mesh = Some g
      ∧ ∀ l, l ∈ t_links g →
          l_source l ∈ PyDict.keys (nodes mesh)
          ∧ l_source l ∈ g_id <$> t_nodes g
          ∧ l_target l ∈ g_id <$> t_nodes g.
Proof.
  assert (Hwf : wf mesh) by by_eval.
  assert (Hsh : shaped (nodes mesh)) by by_eval.
  split; [exact Hwf |]. split; [exact Hsh |].
  exact (links_have_endpoints 20 mesh Hwf Hsh).
Defined.

(** X13: links are not deduplicated: the graph has one link from a stored
    node [A] to [B] for each time [B] occurs in the neighbor list of [A],
    [A] itself and nodes that list [A] in return included, and none from an
    identifier that is not stored. *)
Theorem link_multiplicity (now : float) (s : NetworkManager) :
  wf s → shaped (nodes s) →
  ∃ g, eval (get_topology now) s = Some g
    ∧ (∀ A info B, PyDict.get (nodes s) A = Some info → B ≠ "LOCAL" →
         links_between A B (t_links g)
         = replicate (length (filter (λ n, n = B) (ids_of info))) (link A B))
    ∧ (∀ A B, A ∉ PyDict.keys (nodes s) → links_between A B (t_links g) = []).
Proof.
  intros Hwf Hsh. destruct (build_graph_total now (nodes s) Hsh) as [g Hg].
  exists g. rewrite (graph_links_all _ _ _ Hg). split_and!; [done | |].
  - intros A info B Hget HL.
    rewrite (links_between_known _ _ _ _ Hwf Hget), list_filter_filter.
    rewrite <- fmap_filter_eq. f_equal. apply list_filter_iff.
    intros n. split; [tauto | intros ->; done].
  - intros A B Hout. by apply links_between_other.
Qed.

Lemma link_multiplicity_witness :
  wf mesh ∧ shaped (nodes mesh)
  ∧ ∃ g, eval (get_topology 20) mesh = Some g
      ∧ (∀ A info B, PyDict.get (nodes mesh) A = Some info → B ≠ "LOCAL" →
           links_between A B (t_links g)
           = replicate (length (filter (λ n, n = B) (ids_of info)))
               (link A B))
      ∧ (∀ A B, A ∉ PyDict.keys (nodes mesh) →
           links_between A B (t_links g) = []).
Proof.
  assert (Hwf : wf mesh) by by_eval.
  assert (Hsh : shaped (nodes mesh)) by by_eval.
  split; [exact Hwf |]. split; [exact Hsh |].
  exact (link_multiplicity 20 mesh Hwf Hsh).
Defined.

(** ** Reports and builds over time *)

Lemma shaped_run tr s :
  good_reports tr → shaped (nodes s) → shaped (nodes (run tr s)).
Proof.
  intros Hgood. revert s.
  induction Hgood as [|c tr Hc Hgood IH]; intros s Hsh; [done |].
  rewrite run_cons. apply IH. rewrite nodes_perform.
  destruct c as [B data now|B|B cmd|now|B]; try done.
  by apply shaped_set.
Qed.

(** X14: every build succeeds on a manager that has only received reports
    whose "neighbors" entry is absent or a list of strings, whatever else
    the reports hold and whatever other calls were made. *)
Theorem good_reports_always_build (tr : list call) (now : float) :
  good_reports tr → is_Some (eval (get_topology now) (run tr init)).
Proof.
  intros Hgood. rewrite eval_get_topology. apply build_graph_total.
  apply shaped_run; [done | apply shaped_init].
Qed.

Lemma good_reports_always_build_witness :
  good_reports
    [UpdateNode "A" [("neighbors", PList [PStr "B"]); ("load", PNum 3)] 0;
     QueueCommand "B" "c"; UpdateNode "B" [("ip", PStr "10.0.0.2")] 1]
  ∧ is_Some (eval (get_topology 2)
               (run [UpdateNode "A"
                       [("neighbors", PList [PStr "B"]); ("load", PNum 3)] 0;
                     QueueCommand "B" "c";
                     UpdateNode "B" [("ip", PStr "10.0.0.2")] 1] init)).
Proof.
  assert (Hgood : good_reports
            [UpdateNode "A"
               [("neighbors", PList [PStr "B"]); ("load", PNum 3)] 0;
             QueueCommand "B" "c"; UpdateNode "B" [("ip", PStr "10.0.0.2")] 1]).
  { unfold good_reports. repeat constructor; by eexists. }
  split; [exact Hgood |]. exact (good_reports_always_build _ 2 Hgood).
Defined.

(** X15: once [X] has reported at time [t], every build made before its
    next report, whatever calls come in between, has exactly one node entry
    for [X]: never a ghost, green with weight 10 when the build time minus
    [t], computed in binary64 as the code computes it, is below 5.0, and
    grey with weight 5 when it is not. *)
Theorem reported_node_entry (X : string) (data : list (string * pyval))
    (t now : float) (tr : list call) (s : NetworkManager) :
  let s' := run tr (exec (update_node X data t) s) in
  wf s → no_update X tr → shaped (nodes s') →
  ∃ g, eval (get_topology now) s' = Some g
    ∧ ((now - t <? 5)%float = true →
         entries_for X (t_nodes g)
         = [{| g_id := X; g_name := X; g_val := 10; g_color := "#4CAF50" |}])
    ∧ ((now - t <? 5)%float = false →
         entries_for X (t_nodes g)
         = [{| g_id := X; g_name := X; g_val := 5; g_color := "#9E9E9E" |}]).
Proof.
  intros s' Hwf Hno Hsh.
  destruct (build_graph_total now (nodes s') Hsh) as [g Hg].
  exists g. split; [done |].
  assert (Hget : PyDict.get (nodes s') X = Some (make_info t data)).
  { unfold s'. rewrite get_nodes_run, nodes_update_node by done.
    apply PyDictFacts.get_set_eq. }
  assert (Hwf' : wf s').
  { apply wf_run. unfold wf. rewrite nodes_update_node.
    by apply PyDictFacts.NoDup_keys_set. }
  rewrite (graph_known_entries _ _ _ _ _ Hg Hwf' Hget).
  unfold is_active. simpl. split; by intros ->.
Qed.

Lemma reported_node_entry_witness :
  wf mesh
  ∧ no_update "B" [QueueCommand "B" "c"; UpdateNode "A" [] 24; GetCommands "B"]
  ∧ shaped (nodes (run [QueueCommand "B" "c"; UpdateNode "A" [] 24;
                        GetCommands "B"]
                     (exec (update_node "B" [] 21) mesh)))
  ∧ ∃ g, eval (get_topology 25)
           (run [QueueCommand "B" "c"; UpdateNode "A" [] 24; GetCommands "B"]
              (exec (update_node "B" [] 21) mesh)) = Some g
      ∧ ((25 - 21 <? 5)%float = true →
           entries_for "B" (t_nodes g)
           = [{| g_id := "B"; g_name := "B"; g_val := 10;
                 g_color := "#4CAF50" |}])
      ∧ ((25 - 21 <? 5)%float = false →
           entries_for "B" (t_nodes g)
           = [{| g_id := "B"; g_name := "B"; g_val := 5;
                 g_color := "#9E9E9E" |}]).
Proof.
  assert (Hwf : wf mesh) by by_eval.
  assert (Hno : no_update "B"
            [QueueCommand "B" "c"; UpdateNode "A" [] 24; GetCommands "B"]).
  { unfold no_update. repeat constructor. by_eval. }
  assert (Hsh : shaped (nodes (run [QueueCommand "B" "c"; UpdateNode "A" [] 24;
                                    GetCommands "B"]
                                 (exec (update_node "B" [] 21) mesh))))
    by by_eval.
  split; [exact Hwf |]. split; [exact Hno |]. split; [exact Hsh |].
  exact (reported_node_entry "B" [] 21 25 _ mesh Hwf Hno Hsh).
Defined.

Lemma visit_nodes_same_view now ns1 ns2 b :
  (λ item, (item.1, last_seen item.2, neighbors item.2)) <$> ns1
  = (λ item, (item.1, last_seen item.2, neighbors item.2)) <$> ns2 →
  visit_nodes now b ns1 = visit_nodes now b ns2.
Proof.
  revert ns2 b. induction ns1 as [|[k1 i1] ns1 IH]; intros [|[k2 i2] ns2] b;
    try done.
  rewrite !fmap_cons. simpl. intros [= -> Hls Hnb Hrest].
  unfold visit_node, is_active. rewrite Hls, Hnb.
  destruct (neighbor_ids (neighbors i2)) as [ids|]; simpl; [| done].
  by apply IH.
Qed.

(** X16: the graph reads the store through the identifiers, the time stamps
    and the neighbor lists only: two managers whose stores agree on these,
    node by node, get the same graph, whatever their routing tables,
    addresses, raw reports and command queues are. *)
Theorem graph_ignores_other_fields (now : float) (s1 s2 : NetworkManager) :
  (λ item, (item.1, last_seen item.2, neighbors item.2)) <$> nodes s1
  = (λ item, (item.1, last_seen item.2, neighbors item.2)) <$> nodes s2 →
  eval (get_topology now) s1 = eval (get_topology now) s2.
Proof.
  intros Hview. rewrite !eval_get_topology. unfold build_graph.
  assert (Hkeys : PyDict.keys (nodes s1) = PyDict.keys (nodes s2)).
  { unfold PyDict.keys.
    apply (f_equal (fmap (λ v : string * float * pyval, v.1.1))) in Hview.
    by rewrite <- !list_fmap_compose in Hview. }
  by rewrite Hkeys, (visit_nodes_same_view _ _ _ _ Hview).
Qed.

Lemma graph_ignores_other_fields_witness :
  (λ item, (item.1, last_seen item.2, neighbors item.2)) <$> nodes a_with_ip
  = (λ item, (item.1, last_seen item.2, neighbors item.2))
      <$> nodes a_with_routes
  ∧ eval (get_topology 9) a_with_ip = eval (get_topology 9) a_with_routes.
Proof.
  assert (Hview :
    (λ item, (item.1, last_seen item.2, neighbors item.2)) <$> nodes a_with_ip
    = (λ item, (item.1, last_seen item.2, neighbors item.2))
        <$> nodes a_with_routes) by reflexivity.
  split; [exact Hview |].
  exact (graph_ignores_other_fields 9 a_with_ip a_with_routes Hview).
Defined.
